(** * Rivet: a shallow embedding of the repository controller, the
      configuration loader and the monitoring loop.

    The Go sources are [config/config.go] (package [config]),
    [executor/executor.go] (packages [executor] and [repository]) and
    [watcher/watcher.go] (package [watcher]).

    Effects are modelled by explicit state passing.  Everything the program
    does to the outside world (commands handed to the [CommandExecutor],
    [os.Stat], [os.MkdirAll], the two [select] statements) is put on a
    trace, and the records handed to the logger on a log; the answers of the
    outside world are given by oracles that may depend on the whole trace. *)

From Stdlib Require Import String Ascii List ZArith Bool Lia DecimalString.
Import ListNotations.

Local Open Scope string_scope.
Local Open Scope Z_scope.

(** ** Errors *)

(** Go [error] values.  [Errorf] keeps the format string of the
    [fmt.Errorf] call site and its arguments ([%s], [%d] and [%w], the
    latter possibly [nil]); [Canceled] is [context.Canceled]; [SysError]
    stands for an error produced by [os] or [os/exec], with the answer
    [os.IsNotExist] gives on it. *)
Inductive error : Type :=
| Errorf (format : string) (args : list fmtArg)
| Canceled
| SysError (notExist : bool) (msg : string)
with fmtArg : Type :=
| ArgS (s : string)
| ArgD (n : Z)
| ArgW (e : option error).

Definition IsNotExist (err : option error) : bool :=
  match err with
  | Some (SysError b _) => b
  | _ => false
  end.

(** The test of a Go string against the empty string. *)
Definition isEmpty (s : string) : bool := String.eqb s EmptyString.

Definition isNil (err : option error) : bool :=
  match err with
  | None => true
  | Some _ => false
  end.

(** ** The trace of external effects *)

(** The [slog] levels. *)
Inductive Level : Type := LevelDebug | LevelInfo | LevelWarn | LevelError.

(** A log record: the key/value attributes are not kept, the level and
    the message are. *)
Definition LogRecord : Type := (Level * string)%type.

(** One event per effect on the outside world. *)
Inductive Event : Type :=
| EvExec (workingDir command : string) (args : list string)
| EvStat (path : string)
| EvMkdirAll (path : string) (perm : Z)
| EvAfter (d : Z)          (* select { <-time.After(d) ; <-ctx.Done() } *)
| EvNewTicker (d : Z)      (* time.NewTicker(d) *)
| EvTick.                  (* select { <-ticker.C ; <-ctx.Done() } *)

(** The history is kept newest first. *)
Definition History := list Event.

(** ** package executor *)

Record ExecResult : Type := mkExecResult {
  stdout : string;
  stderr : string;
  exitCode : Z;
  execErr : option error
}.

(** [CommandExecutor] is an interface with the single method [Execute]; a
    value of the interface is its method.  The history stands for
    everything the outcome of a command may depend on besides its working
    directory and command line, the context it is given included. *)
Record CommandExecutor : Type := mkExecutor {
  Execute : History -> string -> string -> list string -> ExecResult
}.

(** What [cmd.Run()] and the process state can report to
    [OSCommandExecutor.Execute]. *)
Inductive RunResult : Type :=
| RunNil (status : option Z)          (* err == nil; ProcessState's WaitStatus *)
| RunExitError (status : option Z) (e : error)   (* *exec.ExitError *)
| RunOtherError (e : error).

Record RawRun : Type := mkRawRun {
  outBuf : string;
  errBuf : string;
  runResult : RunResult
}.

Definition joinArgs (args : list string) : string := String.concat " " args.

Definition OSExecute (run : History -> string -> string -> list string -> RawRun)
    (h : History) (workingDir command : string) (args : list string) : ExecResult :=
  let r := run h workingDir command args in
  let stdout := outBuf r in
  let stderr := errBuf r in
  match runResult r with
  | RunExitError status err =>
      let exitCode := match status with Some c => c | None => -1 end in
      mkExecResult stdout stderr exitCode
        (Some (Errorf "command '%s %s' failed with exit code %d: %w. Stderr: %s"
                 [ArgS command; ArgS (joinArgs args); ArgD exitCode; ArgW (Some err); ArgS stderr]))
  | RunOtherError err =>
      mkExecResult stdout stderr (-1)
        (Some (Errorf "failed to run command '%s %s': %w. Stderr: %s"
                 [ArgS command; ArgS (joinArgs args); ArgW (Some err); ArgS stderr]))
  | RunNil status =>
      let exitCode := match status with Some c => c | None => 0 end in
      mkExecResult stdout stderr exitCode None
  end.

Definition NewOSCommandExecutor
    (run : History -> string -> string -> list string -> RawRun) : CommandExecutor :=
  mkExecutor (OSExecute run).

(** ** package config *)

Module config.

Definition DefaultCheckIntervalSeconds : Z := 5 * 60.
Definition DefaultComposeFile : string := "docker-compose.yml".

Record RepositoryConfig : Type := mkRepositoryConfig {
  BasePath : string;
  GitURL : string;
  CloneDirName : string;
  Branch : string;
  ServiceName : string;
  ComposeFile : string;
  CheckIntervalSeconds : Z
}.

Record AppConfig : Type := mkAppConfig {
  Repositories : list RepositoryConfig
}.

End config.

Import config.

(** ** The outside world *)

(** The state of the two channels of a two-way [select] at the moment the
    statement commits: whether the timer (or ticker) channel can proceed,
    whether the cancellation of the context has arrived by then, and the
    outcome of the pseudo-random choice Go makes when both can proceed. *)
Record Ready : Type := mkReady {
  chanReady : bool;
  cancelArrived : bool;
  pickDone : bool
}.

Inductive SelectCase : Type := CaseChan | CaseDone.

(** Go's [select] on two receive cases: the one that can proceed is taken;
    when both can, the choice is the runtime's; a select that finds neither
    ready blocks until the timer fires. *)
Definition goSelect (chan done coin : bool) : SelectCase :=
  match chan, done with
  | true, false => CaseChan
  | false, true => CaseDone
  | true, true => if coin then CaseDone else CaseChan
  | false, false => CaseChan
  end.

(** Library functions and operating system calls the program uses, as
    oracles.  [filepath.Abs], [filepath.Join], [filepath.IsAbs],
    [strings.TrimSpace], [os.ReadFile] and [yaml.Unmarshal] are functions of
    their arguments; [os.Stat], [os.MkdirAll], the arrival of the
    cancellation and the readiness of channels depend on the history. *)
Record Env : Type := mkEnv {
  Abs : string -> string * option error;
  Join : string -> string -> string;
  IsAbs : string -> bool;
  TrimSpace : string -> string;
  ReadFile : string -> string * option error;
  Unmarshal : string -> AppConfig * option error;
  Stat : History -> string -> option error;
  MkdirAll : History -> string -> Z -> option error;
  cancelArrives : History -> bool;
  afterReady : History -> Z -> Ready;
  tickReady : History -> Ready
}.

(** ** package config: LoadConfig *)

Module loader.

(** The body of the loop [for i := range cfg.Repositories] for one entry:
    the first missing required field stops the load, otherwise the two
    defaults are applied in place. *)
Definition checkEntry (i : Z) (repo : RepositoryConfig) : option error + RepositoryConfig :=
  if isEmpty (BasePath repo) then
    inl (Some (Errorf "repository config at index %d missing required 'basePath'" [ArgD i]))
  else if isEmpty (GitURL repo) then
    inl (Some (Errorf "repository config for '%s/%s' missing required 'gitUrl'"
                 [ArgS (BasePath repo); ArgS (CloneDirName repo)]))
  else if isEmpty (CloneDirName repo) then
    inl (Some (Errorf "repository config for gitUrl '%s' missing required 'cloneDirName'"
                 [ArgS (GitURL repo)]))
  else if isEmpty (Branch repo) then
    inl (Some (Errorf "repository config for '%s/%s' missing required 'branch'"
                 [ArgS (BasePath repo); ArgS (CloneDirName repo)]))
  else if isEmpty (ServiceName repo) then
    inl (Some (Errorf "repository config for '%s/%s' missing required 'serviceName'"
                 [ArgS (BasePath repo); ArgS (CloneDirName repo)]))
  else
    let repo1 :=
      if isEmpty (ComposeFile repo) then
        mkRepositoryConfig (BasePath repo) (GitURL repo) (CloneDirName repo) (Branch repo)
          (ServiceName repo) DefaultComposeFile (CheckIntervalSeconds repo)
      else repo in
    let repo2 :=
      if CheckIntervalSeconds repo1 <=? 0 then
        mkRepositoryConfig (BasePath repo1) (GitURL repo1) (CloneDirName repo1) (Branch repo1)
          (ServiceName repo1) (ComposeFile repo1) DefaultCheckIntervalSeconds
      else repo1 in
    inr repo2.

(** The loop, from index [i] on. *)
Fixpoint checkEntries (i : Z) (repos : list RepositoryConfig)
  : option error + list RepositoryConfig :=
  match repos with
  | [] => inr []
  | repo :: rest =>
      match checkEntry i repo with
      | inl err => inl err
      | inr repo' =>
          match checkEntries (i + 1) rest with
          | inl err => inl err
          | inr rest' => inr (repo' :: rest')
          end
      end
  end.

Definition LoadConfig (E : Env) (filePath : string) : option AppConfig * option error :=
  if isEmpty filePath then
    (None, Some (Errorf "config file path cannot be empty" []))
  else
    let '(absFilePath, err) := Abs E filePath in
    if negb (isNil err) then
      (None, Some (Errorf "failed to get absolute path for config file '%s': %w"
                     [ArgS filePath; ArgW err]))
    else
      let '(data, err) := ReadFile E absFilePath in
      if negb (isNil err) then
        if IsNotExist err then
          (None, Some (Errorf "config file '%s' not found. Please create it or specify a valid path with -config"
                         [ArgS absFilePath]))
        else
          (None, Some (Errorf "failed to read config file '%s': %w" [ArgS absFilePath; ArgW err]))
      else
        let '(cfg, err) := Unmarshal E data in
        if negb (isNil err) then
          (None, Some (Errorf "failed to unmarshal config data from '%s': %w"
                         [ArgS absFilePath; ArgW err]))
        else
          match checkEntries 0 (Repositories cfg) with
          | inl err => (None, err)
          | inr repos => (Some (mkAppConfig repos), None)
          end.

End loader.

(** ** package repository *)

Module repository.

(** The [logger] field of the Go struct is the [logs] part of the state
    the methods run in. *)
Record Repository : Type := mkRepository {
  Config : RepositoryConfig;
  Executor : CommandExecutor;
  workingPath : string;
  isInitialised : bool
}.

Definition NewRepository (cfg : RepositoryConfig) (exec : CommandExecutor) : Repository :=
  mkRepository cfg exec EmptyString false.

(** The state a method of [*Repository] runs in: the receiver, the history
    of effects, the log (newest first, as the history) and what the context
    passed to the method is known to be ([cancelled] is true from the first
    moment a cancellation was observed on; a Go context never goes back). *)
Record St : Type := mkSt {
  repo : Repository;
  trace : History;
  logs : list LogRecord;
  cancelled : bool
}.

Definition M (A : Type) : Type := St -> A * St.

Definition ret {A} (a : A) : M A := fun s => (a, s).

Definition bind {A B} (m : M A) (k : A -> M B) : M B :=
  fun s => let '(a, s1) := m s in k a s1.

Notation "x <- c1 ;; c2" := (bind c1 (fun x => c2))
  (at level 61, c1 at next level, right associativity).
Notation "' pat <- c1 ;; c2" := (bind c1 (fun x => match x with pat => c2 end))
  (at level 61, pat pattern, c1 at next level, right associativity).
Notation "c1 ;; c2" := (bind c1 (fun _ => c2))
  (at level 61, right associativity).

Definition emit (e : Event) : M unit :=
  fun s => (tt, mkSt (repo s) (e :: trace s) (logs s) (cancelled s)).

Definition log (lvl : Level) (msg : string) : M unit :=
  fun s => (tt, mkSt (repo s) (trace s) ((lvl, msg) :: logs s) (cancelled s)).

Definition self : M Repository := fun s => (repo s, s).

Definition setWorkingPath (p : string) : M unit :=
  fun s => (tt, mkSt (mkRepository (Config (repo s)) (Executor (repo s)) p
                        (isInitialised (repo s))) (trace s) (logs s) (cancelled s)).

Definition setInitialised (b : bool) : M unit :=
  fun s => (tt, mkSt (mkRepository (Config (repo s)) (Executor (repo s))
                        (workingPath (repo s)) b) (trace s) (logs s) (cancelled s)).

(** [r.Executor.Execute(ctx, workingDir, command, args...)] *)
Definition execute (workingDir command : string) (args : list string) : M ExecResult :=
  fun s => (Execute (Executor (repo s)) (trace s) workingDir command args,
            mkSt (repo s) (EvExec workingDir command args :: trace s) (logs s) (cancelled s)).

(** What the verb [%d] prints. *)
Definition itoa (n : Z) : string := NilZero.string_of_int (Z.to_int n).

Definition Second : Z := 1000000000.

Section WithEnv.

Variable E : Env.

Definition stat (path : string) : M (option error) :=
  fun s => (Stat E (trace s) path, mkSt (repo s) (EvStat path :: trace s) (logs s) (cancelled s)).

Definition mkdirAll (path : string) (perm : Z) : M (option error) :=
  fun s => (MkdirAll E (trace s) path perm,
            mkSt (repo s) (EvMkdirAll path perm :: trace s) (logs s) (cancelled s)).

(** [ctx.Err()]: the cancellation is seen if it was seen before or has
    arrived by now. *)
Definition ctxErr : M (option error) :=
  fun s =>
    let c := cancelled s || cancelArrives E (trace s) in
    (if c then Some Canceled else None, mkSt (repo s) (trace s) (logs s) c).

(** [select { case <-time.After(d): ... case <-ctx.Done(): ... }] *)
Definition selectAfter (d : Z) : M SelectCase :=
  fun s =>
    let rd := afterReady E (trace s) d in
    let done := cancelled s || cancelArrived rd in
    (goSelect (chanReady rd) done (pickDone rd),
     mkSt (repo s) (EvAfter d :: trace s) (logs s) done).

Definition getWorkingPath : M (string * option error) :=
  r <- self ;;
  if negb (isEmpty (workingPath r)) then ret (workingPath r, None)
  else if isEmpty (BasePath (Config r)) || isEmpty (CloneDirName (Config r)) then
    ret (EmptyString, Some (Errorf "basePath or cloneDirName is empty in repository config" []))
  else
    let '(absBasePath, err) := Abs E (BasePath (Config r)) in
    if negb (isNil err) then
      ret (EmptyString,
           Some (Errorf "failed to get absolute path for basePath '%s': %w"
                   [ArgS (BasePath (Config r)); ArgW err]))
    else
      setWorkingPath (Join E absBasePath (CloneDirName (Config r))) ;;
      r' <- self ;;
      ret (workingPath r', None).

(** The part of [ensureCloned] that makes sure the base path exists. *)
Definition ensureBasePath (r : Repository) : M (option error) :=
  err <- stat (BasePath (Config r)) ;;
  if IsNotExist err then
    log LevelInfo "Base path does not exist, creating it." ;;
    err <- mkdirAll (BasePath (Config r)) 493 ;;
    if negb (isNil err) then
      ret (Some (Errorf "failed to create base path '%s': %w"
                   [ArgS (BasePath (Config r)); ArgW err]))
    else ret None
  else if negb (isNil err) then
    ret (Some (Errorf "failed to check base path '%s': %w"
                 [ArgS (BasePath (Config r)); ArgW err]))
  else ret None.

Definition cloneArgs (r : Repository) : list string :=
  ["clone"; "-b"; Branch (Config r); GitURL (Config r); CloneDirName (Config r)].

Definition ensureCloned : M (option error) :=
  r <- self ;;
  if isInitialised r then ret None
  else
    '(workDir, err) <- getWorkingPath ;;
    if negb (isNil err) then
      ret (Some (Errorf "could not determine working path: %w" [ArgW err]))
    else
      log LevelInfo "Ensuring repository is cloned" ;;
      let gitDirPath := Join E workDir ".git" in
      err <- stat gitDirPath ;;
      if isNil err then
        log LevelInfo "Repository already exists." ;;
        setInitialised true ;;
        ret None
      else if negb (IsNotExist err) then
        ret (Some (Errorf "failed to check for existing .git directory at '%s': %w"
                     [ArgS gitDirPath; ArgW err]))
      else
        log LevelInfo "Repository not found locally, attempting to clone..." ;;
        berr <- ensureBasePath r ;;
        match berr with
        | Some e => ret (Some e)
        | None =>
            res <- execute (BasePath (Config r)) "git" (cloneArgs r) ;;
            if negb (isNil (execErr res)) then
              log LevelError "Git clone command execution failed" ;;
              ret (Some (Errorf "git clone execution failed: %w" [ArgW (execErr res)]))
            else if negb (exitCode res =? 0) then
              log LevelError "Git clone command returned non-zero exit code" ;;
              ret (Some (Errorf "git clone command failed with exit code %d. Stderr: %s"
                           [ArgD (exitCode res); ArgS (stderr res)]))
            else
              log LevelInfo "Git clone successful." ;;
              setInitialised true ;;
              ret None
        end.

Definition fetchArgs (r : Repository) : list string :=
  ["fetch"; "origin"; Branch (Config r); "--prune"].

Definition localCommitArgs : list string := ["rev-parse"; "HEAD"].

(** [fmt.Sprintf] with the format [origin/%s]. *)
Definition remoteRef (r : Repository) : string := "origin/" ++ Branch (Config r).

Definition remoteCommitArgs (r : Repository) : list string := ["rev-parse"; remoteRef r].

Definition ancestorArgs (localCommit remoteCommit : string) : list string :=
  ["merge-base"; "--is-ancestor"; localCommit; remoteCommit].

Definition CheckForUpdates : M (bool * option error) :=
  r <- self ;;
  if negb (isInitialised r) then
    ret (false, Some (Errorf "repository not initialized, call EnsureCloned first" []))
  else
    '(workDir, _) <- getWorkingPath ;;
    log LevelDebug "Checking for updates..." ;;
    log LevelDebug "Running 'git fetch'..." ;;
    fetch <- execute workDir "git" (fetchArgs r) ;;
    if negb (isNil (execErr fetch)) || negb (exitCode fetch =? 0) then
      log LevelError "Git fetch failed" ;;
      ret (false, Some (Errorf "git fetch failed (exit %d): %w. Stderr: %s"
                          [ArgD (exitCode fetch); ArgW (execErr fetch); ArgS (stderr fetch)]))
    else
      log LevelDebug "'git fetch' successful." ;;
      loc <- execute workDir "git" localCommitArgs ;;
      if negb (isNil (execErr loc)) || negb (exitCode loc =? 0) then
        log LevelError "Failed to get local HEAD commit" ;;
        ret (false, Some (Errorf "failed to get local HEAD (exit %d): %w. Stderr: %s"
                            [ArgD (exitCode loc); ArgW (execErr loc); ArgS (stderr loc)]))
      else
        let localCommit := TrimSpace E (stdout loc) in
        log LevelDebug "Local commit" ;;
        rem <- execute workDir "git" (remoteCommitArgs r) ;;
        if negb (isNil (execErr rem)) || negb (exitCode rem =? 0) then
          log LevelError "Failed to get remote commit" ;;
          ret (false, Some (Errorf "failed to get remote commit for '%s' (exit %d): %w. Stderr: %s"
                              [ArgS (remoteRef r); ArgD (exitCode rem); ArgW (execErr rem);
                               ArgS (stderr rem)]))
        else
          let remoteCommit := TrimSpace E (stdout rem) in
          log LevelDebug "Remote commit" ;;
          if String.eqb localCommit remoteCommit then
            log LevelInfo "No updates found. Local and remote are at the same commit." ;;
            ret (false, None)
          else
            anc <- execute workDir "git" (ancestorArgs localCommit remoteCommit) ;;
            if negb (isNil (execErr anc)) && negb (exitCode anc =? 0)
               && negb (exitCode anc =? 1) then
              log LevelError "Git merge-base command execution failed" ;;
              ret (false, Some (Errorf "git merge-base execution failed (exit %d): %w. Stderr: %s"
                                  [ArgD (exitCode anc); ArgW (execErr anc); ArgS (stderr anc)]))
            else if exitCode anc =? 0 then
              log LevelInfo "Updates found!" ;;
              ret (true, None)
            else
              log LevelInfo "Local commit is not a simple ancestor of remote. Possible divergence or local is ahead. No auto-pull." ;;
              ret (false, None).

Definition pullArgs (r : Repository) : list string :=
  ["pull"; "origin"; Branch (Config r); "--ff-only"].

Definition PullChanges : M (option error) :=
  r <- self ;;
  if negb (isInitialised r) then ret (Some (Errorf "repository not initialized" []))
  else
    '(workDir, _) <- getWorkingPath ;;
    log LevelInfo "Pulling changes..." ;;
    res <- execute workDir "git" (pullArgs r) ;;
    if negb (isNil (execErr res)) || negb (exitCode res =? 0) then
      log LevelError "Git pull failed" ;;
      ret (Some (Errorf "git pull failed (exit %d): %w. Stderr: %s"
                   [ArgD (exitCode res); ArgW (execErr res); ArgS (stderr res)]))
    else
      log LevelInfo "'git pull' successful." ;;
      ret None.

(** The manifest path both [BuildContainers] and [DeployContainers] use. *)
Definition composeFilePath (r : Repository) (workDir : string) : string :=
  if negb (IsAbs E (ComposeFile (Config r))) then Join E workDir (ComposeFile (Config r))
  else ComposeFile (Config r).

Definition buildArgs (r : Repository) (workDir : string) : list string :=
  let args := ["compose"; "-f"; composeFilePath r workDir; "build"; "--pull"] in
  if negb (isEmpty (ServiceName (Config r))) then args ++ [ServiceName (Config r)]
  else args.

Definition BuildContainers : M (option error) :=
  r <- self ;;
  if negb (isInitialised r) then ret (Some (Errorf "repository not initialised" []))
  else
    '(workDir, _) <- getWorkingPath ;;
    log LevelInfo "Building containers..." ;;
    res <- execute workDir "docker" (buildArgs r workDir) ;;
    if negb (isNil (execErr res)) || negb (exitCode res =? 0) then
      log LevelError "Docker-compose build failed" ;;
      ret (Some (Errorf "docker compose build failed (exit %d): %w. Stderr: %s"
                   [ArgD (exitCode res); ArgW (execErr res); ArgS (stderr res)]))
    else
      log LevelInfo "'docker compose build' successful." ;;
      ret None.

Definition initialScale : Z := 1.
Definition targetScaleUp : Z := initialScale + 1.
Definition finalScale : Z := initialScale.
Definition healthCheckDelay : Z := 30 * Second.

Definition upArgs (r : Repository) (workDir : string) : list string :=
  ["compose"; "-f"; composeFilePath r workDir; "up"; "-d";
   "--no-deps";
   "--scale"; ServiceName (Config r) ++ "=" ++ itoa targetScaleUp;
   "--no-recreate";
   ServiceName (Config r)].

Definition downArgs (r : Repository) (workDir : string) : list string :=
  ["compose"; "-f"; composeFilePath r workDir; "up"; "-d";
   "--scale"; ServiceName (Config r) ++ "=" ++ itoa finalScale;
   "--no-recreate";
   ServiceName (Config r)].

Definition DeployContainers : M (option error) :=
  r <- self ;;
  if negb (isInitialised r) then ret (Some (Errorf "repository not initialised" []))
  else
    '(workDir, _) <- getWorkingPath ;;
    log LevelInfo "Deploying containers..." ;;
    log LevelInfo "Scaling up service" ;;
    up <- execute workDir "docker" (upArgs r workDir) ;;
    if negb (isNil (execErr up)) || negb (exitCode up =? 0) then
      log LevelError "Docker-compose scale up failed" ;;
      ret (Some (Errorf "docker compose scale up failed (exit %d): %w. Stderr: %s"
                   [ArgD (exitCode up); ArgW (execErr up); ArgS (stderr up)]))
    else
      log LevelInfo "Service scaled up successfully." ;;
      log LevelInfo "Waiting for new container to stabilize (simulated health check)..." ;;
      c <- selectAfter healthCheckDelay ;;
      match c with
      | CaseDone =>
          log LevelWarn "Context cancelled during health check wait" ;;
          ctxErr
      | CaseChan =>
          log LevelInfo "Scaling down service" ;;
          down <- execute workDir "docker" (downArgs r workDir) ;;
          if negb (isNil (execErr down)) || negb (exitCode down =? 0) then
            log LevelError "Docker-compose scale down failed" ;;
            ret (Some (Errorf "docker compose scale down failed (exit %d): %w. Stderr: %s"
                         [ArgD (exitCode down); ArgW (execErr down); ArgS (stderr down)]))
          else
            log LevelInfo "Service scaled down successfully. Deployment complete." ;;
            ret None
      end.

(** The check [if ctx.Err() != nil { log; return ctx.Err() }] that follows
    every step of [Process]; [k] is the rest of the function. *)
Definition checkCtx (msg : string) (k : M (option error)) : M (option error) :=
  e <- ctxErr ;;
  if negb (isNil e) then log LevelInfo msg ;; ctxErr
  else k.

Definition Process : M (option error) :=
  err <- ensureCloned ;;
  match err with
  | Some e =>
      log LevelError "Failed to ensure repository is cloned/initialized" ;;
      ret (Some (Errorf "failed to initialize repository: %w" [ArgW (Some e)]))
  | None =>
  checkCtx "Context cancelled after ensureCloned" (
  log LevelInfo "Processing repository" ;;
  '(updatesFound, err) <- CheckForUpdates ;;
  match err with
  | Some e =>
      log LevelError "Failed to check for updates" ;;
      ret (Some (Errorf "update check failed: %w" [ArgW (Some e)]))
  | None =>
  checkCtx "Context cancelled after CheckForUpdates" (
  if negb updatesFound then
    log LevelInfo "No updates found. Nothing to do." ;;
    ret None
  else
  log LevelInfo "Updates detected. Starting deployment process..." ;;
  err <- PullChanges ;;
  match err with
  | Some e =>
      log LevelError "Failed to pull changes" ;;
      ret (Some (Errorf "pull changes failed: %w" [ArgW (Some e)]))
  | None =>
  checkCtx "Context cancelled after PullChanges" (
  err <- BuildContainers ;;
  match err with
  | Some e =>
      log LevelError "Failed to build containers" ;;
      ret (Some (Errorf "build containers failed: %w" [ArgW (Some e)]))
  | None =>
  checkCtx "Context cancelled after BuildContainers" (
  err <- DeployContainers ;;
  match err with
  | Some e =>
      log LevelError "Failed to deploy containers" ;;
      ret (Some (Errorf "deploy containers failed: %w" [ArgW (Some e)]))
  | None =>
  checkCtx "Context cancelled after DeployContainers" (
  log LevelInfo "Repository processed and deployed successfully." ;;
  ret None)
  end)
  end)
  end)
  end)
  end.

End WithEnv.

End repository.

Import repository.

(** ** package watcher *)

Module watcher.

(** How a run of [monitorRepository] ends: it returns, [time.NewTicker]
    panics on a non-positive duration, or the model runs out of fuel (the
    loop itself has no bound). *)
Inductive MonitorResult : Type := Returned | Panicked | OutOfFuel.

(** The [Watcher] struct; the [logger] field is the log of the state the
    monitors run in.  The fields are named after the Go ones, in lower case
    where the Go name is taken. *)
Record Watcher : Type := mkWatcher {
  appConfig : AppConfig;
  executor : CommandExecutor;
  repos : list Repository
}.

(** [NewWatcher]: one controller per configured repository, appended in
    the order of the configuration. *)
Definition NewWatcher (appCfg : AppConfig) (exec : CommandExecutor) : Watcher :=
  mkWatcher appCfg exec
    (fold_left (fun rs repoCfg => (rs ++ [NewRepository repoCfg exec])%list)
       (Repositories appCfg) []).

(** The wrap-around of an [int64] ([time.Duration]) product. *)
Definition wrap64 (z : Z) : Z :=
  (z + 2 ^ 63) mod 2 ^ 64 - 2 ^ 63.

Section WithEnv.

Variable E : Env.

(** [select { case <-ticker.C: ... case <-ctx.Done(): ... }] *)
Definition selectTick : M SelectCase :=
  fun s =>
    let rd := tickReady E (trace s) in
    let done := cancelled s || cancelArrived rd in
    (goSelect (chanReady rd) done (pickDone rd),
     mkSt (repo s) (EvTick :: trace s) (logs s) done).

(** [repo.Process(ctx)] with the log of its error, as both call sites of
    [monitorRepository] have it. *)
Definition processAndLog (msg : string) : M unit :=
  err <- Process E ;;
  if negb (isNil err) then log LevelError msg else ret tt.

(** The [for { select { ... } }] loop.  The deferred [ticker.Stop()] has
    no effect the model keeps. *)
Fixpoint monitorLoop (fuel : nat) : M MonitorResult :=
  match fuel with
  | O => ret OutOfFuel
  | S fuel' =>
      c <- selectTick ;;
      match c with
      | CaseChan =>
          log LevelInfo "Scheduled check triggered." ;;
          processAndLog "Error during scheduled processing" ;;
          e <- ctxErr E ;;
          if negb (isNil e) then
            log LevelInfo "Monitoring stopped during scheduled process due to context cancellation." ;;
            ret Returned
          else monitorLoop fuel'
      | CaseDone =>
          log LevelInfo "Monitoring stopping due to context cancellation signal." ;;
          ret Returned
      end
  end.

Definition monitorRepository (fuel : nat) (checkIntervalSec : Z) : M MonitorResult :=
  log LevelInfo "Starting monitoring for repository" ;;
  log LevelInfo "Performing initial check..." ;;
  processAndLog "Error during initial processing" ;;
  e <- ctxErr E ;;
  if negb (isNil e) then
    log LevelInfo "Monitoring stopped during initial process due to context cancellation." ;;
    ret Returned
  else
    let d := wrap64 (checkIntervalSec * Second) in
    if d <=? 0 then ret Panicked
    else
      emit (EvNewTicker d) ;;
      monitorLoop fuel.

End WithEnv.

End watcher.

Import loader watcher.

(** * Concrete environments

    Small executable worlds, used to run the model on concrete inputs. *)

Module world.

Definition isSpace (c : ascii) : bool :=
  match c with
  | " "%char | "009"%char | "010"%char | "011"%char | "012"%char | "013"%char => true
  | _ => false
  end.

Fixpoint trimLeft (s : string) : string :=
  match s with
  | String c s' => if isSpace c then trimLeft s' else s
  | EmptyString => EmptyString
  end.

Fixpoint trimRight (s : string) : string :=
  match s with
  | String c s' =>
      match trimRight s' with
      | EmptyString => if isSpace c then EmptyString else String c EmptyString
      | t => String c t
      end
  | EmptyString => EmptyString
  end.

(** [strings.TrimSpace] on ASCII text. *)
Definition trimSpace (s : string) : string := trimRight (trimLeft s).

Definition pathJoin (a b : string) : string := a ++ "/" ++ b.

Definition pathIsAbs (p : string) : bool := String.prefix "/" p.

(** A world in which paths are absolute already, the file system calls
    answer as [statAnswer] says, and the cancellation and the channels
    behave as the three last arguments say. *)
Definition env (unmarshalled : AppConfig) (statAnswer : History -> string -> option error)
    (cancel : History -> bool) (after : History -> Z -> Ready) (tick : History -> Ready) : Env :=
  mkEnv (fun p => (p, None)) pathJoin pathIsAbs trimSpace
    (fun _ => (EmptyString, None)) (fun _ => (unmarshalled, None))
    statAnswer (fun _ _ _ => None) cancel after tick.

Definition present : History -> string -> option error := fun _ _ => None.

Definition absent : History -> string -> option error :=
  fun _ _ => Some (SysError true "no such file or directory").

Definition never : History -> bool := fun _ => false.

Definition timerOnly : Ready := mkReady true false false.

(** The quiet world: the working copy exists, nothing is ever cancelled and
    timers fire. *)
Definition quiet : Env :=
  env (mkAppConfig []) present never (fun _ _ => timerOnly) (fun _ => timerOnly).

Definition newline : string := String "010"%char EmptyString.

(** A command that exited 0 after printing [out]. *)
Definition printed (out : string) : ExecResult := mkExecResult out EmptyString 0 None.

Definition exited (code : Z) : ExecResult :=
  mkExecResult EmptyString "failed" code (Some (SysError false "exit status")).

(** The first argument of a command line names the git subcommand. *)
Definition subcommand (args : list string) : string :=
  match args with
  | a :: _ => a
  | [] => EmptyString
  end.

(** A runner for a working copy at commit [localId] whose remote branch is
    at [remoteId]; [ancestor] is the answer to the ancestor check, [others]
    answers every other command. *)
Definition scripted (localId remoteId : string) (ancestor : ExecResult)
    (others : string -> list string -> ExecResult) : CommandExecutor :=
  mkExecutor (fun _ _ command args =>
    if String.eqb (subcommand args) "rev-parse" then
      if String.eqb (nth 1 args EmptyString) "HEAD" then printed (localId ++ newline)
      else printed (remoteId ++ newline)
    else if String.eqb (subcommand args) "merge-base" then ancestor
    else others command args).

Definition allGood : string -> list string -> ExecResult := fun _ _ => printed EmptyString.

Definition cfg : RepositoryConfig :=
  mkRepositoryConfig "/srv/apps" "https://example.org/shop.git" "shop" "main" "web"
    "docker-compose.yml" 300.

(** A controller, fresh or already initialized, in a state with an empty
    history. *)
Definition fresh (ex : CommandExecutor) : St :=
  mkSt (NewRepository cfg ex) [] [] false.

Definition initialised (ex : CommandExecutor) : St :=
  mkSt (mkRepository cfg ex "/srv/apps/shop" true) [] [] false.

End world.

(** * Vocabulary of the statements *)

(** The entries of the configuration file as [yaml.Unmarshal] delivers
    them, before [LoadConfig] looks at them. *)
Definition unmarshalled (E : Env) (filePath : string) : list RepositoryConfig :=
  Repositories (fst (Unmarshal E (fst (ReadFile E (fst (Abs E filePath)))))).

(** [out] is [raw] with the two defaults applied and nothing else changed. *)
Definition defaulted (raw out : RepositoryConfig) : Prop :=
  BasePath out = BasePath raw /\
  GitURL out = GitURL raw /\
  CloneDirName out = CloneDirName raw /\
  Branch out = Branch raw /\
  ServiceName out = ServiceName raw /\
  ComposeFile out =
    (if isEmpty (ComposeFile raw) then "docker-compose.yml" else ComposeFile raw) /\
  CheckIntervalSeconds out =
    (if CheckIntervalSeconds raw <=? 0 then 300 else CheckIntervalSeconds raw).

(** A file with two entries: one leaves both optional fields unset, the
    other sets both (the interval to a negative number). *)
Definition twoEntries : AppConfig :=
  mkAppConfig
    [mkRepositoryConfig "/srv/apps" "https://example.org/shop.git" "shop" "main" "web"
       EmptyString 0;
     mkRepositoryConfig "/srv/apps" "https://example.org/blog.git" "blog" "trunk" "site"
       "compose.prod.yml" (-5)].

Definition twoEntriesEnv : Env :=
  world.env twoEntries world.present world.never
    (fun _ _ => world.timerOnly) (fun _ => world.timerOnly).

Definition twoEntriesLoaded : AppConfig :=
  mkAppConfig
    [mkRepositoryConfig "/srv/apps" "https://example.org/shop.git" "shop" "main" "web"
       "docker-compose.yml" 300;
     mkRepositoryConfig "/srv/apps" "https://example.org/blog.git" "blog" "trunk" "site"
       "compose.prod.yml" 300].

(** ** The answers of the runner during one call of [CheckForUpdates]

    [CheckForUpdates], started in state [s], hands up to four commands to
    the runner, each at the history the earlier ones leave. *)

Section Answers.

Variable E : Env.

Definition workDirOf (s : St) : string := fst (fst (getWorkingPath E s)).

Definition fetchAnswer (s : St) : ExecResult :=
  Execute (Executor (repo s)) (trace s) (workDirOf s) "git" (fetchArgs (repo s)).

Definition traceAfterFetch (s : St) : History :=
  EvExec (workDirOf s) "git" (fetchArgs (repo s)) :: trace s.

Definition localAnswer (s : St) : ExecResult :=
  Execute (Executor (repo s)) (traceAfterFetch s) (workDirOf s) "git" localCommitArgs.

Definition traceAfterLocal (s : St) : History :=
  EvExec (workDirOf s) "git" localCommitArgs :: traceAfterFetch s.

Definition remoteAnswer (s : St) : ExecResult :=
  Execute (Executor (repo s)) (traceAfterLocal s) (workDirOf s) "git"
    (remoteCommitArgs (repo s)).

Definition traceAfterRemote (s : St) : History :=
  EvExec (workDirOf s) "git" (remoteCommitArgs (repo s)) :: traceAfterLocal s.

(** The two resolved commit identifiers. *)
Definition localCommit (s : St) : string := TrimSpace E (stdout (localAnswer s)).

Definition remoteCommit (s : St) : string := TrimSpace E (stdout (remoteAnswer s)).

Definition ancestorAnswer (s : St) : ExecResult :=
  Execute (Executor (repo s)) (traceAfterRemote s) (workDirOf s) "git"
    (ancestorArgs (localCommit s) (remoteCommit s)).

End Answers.

(** A command that ran and exited 0. *)
Definition succeeded (a : ExecResult) : Prop := execErr a = None /\ exitCode a = 0.

(** The contract of the process runner: a nil error comes with exit code 0
    only (a command that exits non-zero, or cannot be started, is reported
    with a non-nil error). *)
Definition RunnerContract (ex : CommandExecutor) : Prop :=
  forall h workingDir command args,
    execErr (Execute ex h workingDir command args) = None ->
    exitCode (Execute ex h workingDir command args) = 0.

(** The commands on a history, oldest first, each with its command line. *)
Fixpoint commands (h : History) : list (string * list string) :=
  match h with
  | [] => []
  | EvExec _ command args :: h' => commands h' ++ [(command, args)]
  | _ :: h' => commands h'
  end.

(** ** Example states *)

(** An initialized controller whose working copy is at the commit of the
    remote branch. *)
Definition upToDate : St :=
  world.initialised (world.scripted "abc123" "abc123" (world.exited 1) world.allGood).

(** One whose remote branch is ahead of the working copy, with the answer
    to the ancestor check left open. *)
Definition behind (ancestor : ExecResult) : St :=
  world.initialised (world.scripted "abc123" "def456" ancestor world.allGood).

(** ** The scale-up step of [DeployContainers] and the settle wait *)

Section DeployPoints.

Variable E : Env.

Definition upCommand (s : St) : Event :=
  EvExec (workDirOf E s) "docker" (upArgs E (repo s) (workDirOf E s)).

Definition upAnswer (s : St) : ExecResult :=
  Execute (Executor (repo s)) (trace s) (workDirOf E s) "docker"
    (upArgs E (repo s) (workDirOf E s)).

(** The channels of the settle wait when the [select] commits. *)
Definition settleReady (s : St) : Ready :=
  afterReady E (upCommand s :: trace s) healthCheckDelay.

(** The cancellation has reached the context by the time the [select]
    of the settle wait commits (or had been seen before). *)
Definition cancelledInWait (s : St) : Prop :=
  cancelled s || cancelArrived (settleReady s) = true.

End DeployPoints.

(** A command that did not run to exit code 0. *)
Definition failed (a : ExecResult) : Prop := execErr a <> None \/ exitCode a <> 0.

(** A working copy that is behind its remote by a fast-forward, with a
    given answer to the scale-up command (every command with [--no-deps]
    on its line) and everything else succeeding. *)
Definition scaleUpAnswers (up : ExecResult) : string -> list string -> ExecResult :=
  fun _ args => if existsb (String.eqb "--no-deps") args then up else world.printed EmptyString.

Definition deployable (up : ExecResult) : St :=
  world.initialised
    (world.scripted "abc123" "def456" (world.printed EmptyString) (scaleUpAnswers up)).

(** A world in which the cancellation arrives during every settle wait,
    before the timer fires. *)
Definition cancelledWhileSettling : Env :=
  world.env (mkAppConfig []) world.present world.never
    (fun _ _ => mkReady false true false) (fun _ => world.timerOnly).

(** A world in which, at every settle wait, the timer has fired and the
    cancellation has arrived by the time the [select] commits, and the
    runtime takes the timer. *)
Definition settledAndCancelled : Env :=
  world.env (mkAppConfig []) world.present world.never
    (fun _ _ => mkReady true true false) (fun _ => world.timerOnly).

(** ** Counting clone commands *)

Definition isClone (e : Event) : bool :=
  match e with
  | EvExec _ command (a :: _) => String.eqb command "git" && String.eqb a "clone"
  | _ => false
  end.

(** The number of clone commands on a history. *)
Definition clones (h : History) : nat := length (filter isClone h).

(** The state two calls of [ensureCloned] in sequence leave. *)
Definition ensureClonedTwice (E : Env) (s : St) : St :=
  snd (ensureCloned E (snd (ensureCloned E s))).

(** Two calls in sequence issue the clone command at most once. *)
Definition clonesAtMostOnce (E : Env) (s : St) : Prop :=
  (clones (trace (ensureClonedTwice E s)) <= clones (trace s) + 1)%nat.

(** A world without a working copy, and a runner on which every command
    exits with status 128. *)
Definition noWorkingCopy : Env :=
  world.env (mkAppConfig []) world.absent world.never
    (fun _ _ => world.timerOnly) (fun _ => world.timerOnly).

Definition unreachable : CommandExecutor :=
  mkExecutor (fun _ _ _ _ => world.exited 128).

Definition reachable : CommandExecutor :=
  mkExecutor (fun _ _ _ _ => world.printed EmptyString).

(** ** The steps of [Process] *)

Inductive Step : Type := StepInit | StepDetect | StepPull | StepBuild | StepDeploy.

Section Stages.

Variable E : Env.

(** After a step that returned a nil error [Process] asks [ctx.Err()] and
    goes on, in the state this leaves, if the answer is nil. *)
Definition proceed (r : option error * St) : option St :=
  match r with
  | (None, s1) =>
      match ctxErr E s1 with
      | (None, s2) => Some s2
      | (Some _, _) => None
      end
  | (Some _, _) => None
  end.

(** The state in which [CheckForUpdates] is called, when [Process], started
    in [s], gets that far; and what the call returns. *)
Definition detectStart (s : St) : option St :=
  option_map (fun s1 => snd (log LevelInfo "Processing repository" s1))
    (proceed (ensureCloned E s)).

Definition detectRun (s : St) : option (bool * option error * St) :=
  option_map (CheckForUpdates E) (detectStart s).

(** The same for [PullChanges], which is reached when [CheckForUpdates]
    returned [true]. *)
Definition pullStart (s : St) : option St :=
  match detectRun s with
  | Some (true, None, s2) =>
      option_map
        (fun s3 => snd (log LevelInfo "Updates detected. Starting deployment process..." s3))
        (proceed (None, s2))
  | _ => None
  end.

Definition pullRun (s : St) : option (option error * St) :=
  option_map (PullChanges E) (pullStart s).

Definition buildStart (s : St) : option St :=
  match pullRun s with
  | Some r => proceed r
  | None => None
  end.

Definition buildRun (s : St) : option (option error * St) :=
  option_map (BuildContainers E) (buildStart s).

Definition deployStart (s : St) : option St :=
  match buildRun s with
  | Some r => proceed r
  | None => None
  end.

Definition deployRun (s : St) : option (option error * St) :=
  option_map (DeployContainers E) (deployStart s).

(** [stepRun step s = Some (err, s')]: [Process], started in [s], gets to
    [step]; the step returns [err] and leaves the state [s']. *)
Definition stepRun (step : Step) (s : St) : option (option error * St) :=
  match step with
  | StepInit => Some (ensureCloned E s)
  | StepDetect => option_map (fun r => (snd (fst r), snd r)) (detectRun s)
  | StepPull => pullRun s
  | StepBuild => buildRun s
  | StepDeploy => deployRun s
  end.

End Stages.

(** The error [Process] returns when a step fails with [e]. *)
Definition failureOf (step : Step) (e : error) : error :=
  match step with
  | StepInit => Errorf "failed to initialize repository: %w" [ArgW (Some e)]
  | StepDetect => Errorf "update check failed: %w" [ArgW (Some e)]
  | StepPull => Errorf "pull changes failed: %w" [ArgW (Some e)]
  | StepBuild => Errorf "build containers failed: %w" [ArgW (Some e)]
  | StepDeploy => Errorf "deploy containers failed: %w" [ArgW (Some e)]
  end.

(** The step a command line belongs to. *)
Definition stepOfCommand (c : string * list string) : option Step :=
  let '(command, args) := c in
  if String.eqb command "git" then
    match args with
    | a :: _ =>
        if String.eqb a "clone" then Some StepInit
        else if String.eqb a "fetch" || String.eqb a "rev-parse" || String.eqb a "merge-base"
        then Some StepDetect
        else if String.eqb a "pull" then Some StepPull
        else None
    | [] => None
    end
  else if String.eqb command "docker" then
    match args with
    | _ :: _ :: _ :: a :: _ =>
        if String.eqb a "build" then Some StepBuild
        else if String.eqb a "up" then Some StepDeploy
        else None
    | _ => None
    end
  else None.

(** The place of a command in the order of the steps; 0 for a command of
    no step. *)
Definition rankOf (c : string * list string) : nat :=
  match stepOfCommand c with
  | Some StepInit => 1
  | Some StepDetect => 2
  | Some StepPull => 3
  | Some StepBuild => 4
  | Some StepDeploy => 5
  | None => 0
  end.

(** The ranks never go down, and start at [lo] at least. *)
Fixpoint inOrder (lo : nat) (ranks : list nat) : bool :=
  match ranks with
  | [] => true
  | r :: rest => (lo <=? r)%nat && inOrder r rest
  end.

(** [AddsOnly k h h']: the history [h'] is [h] with more events on top,
    whose commands all have rank [k]. *)
Inductive AddsOnly (k : nat) (h : History) : History -> Prop :=
| AddsNothing : AddsOnly k h h
| AddsCommand (workingDir command : string) (args : list string) (h' : History) :
    rankOf (command, args) = k -> AddsOnly k h h' ->
    AddsOnly k h (EvExec workingDir command args :: h')
| AddsStat (path : string) (h' : History) :
    AddsOnly k h h' -> AddsOnly k h (EvStat path :: h')
| AddsMkdirAll (path : string) (perm : Z) (h' : History) :
    AddsOnly k h h' -> AddsOnly k h (EvMkdirAll path perm :: h')
| AddsAfter (d : Z) (h' : History) :
    AddsOnly k h h' -> AddsOnly k h (EvAfter d :: h').

(** [Grows h k h']: the history [h'] is [h] with more events on top, whose
    commands have ranks from 1 to [k] that never go down in time. *)
Inductive Grows (h : History) : nat -> History -> Prop :=
| GrowsNothing (k : nat) : (1 <= k)%nat -> Grows h k h
| GrowsMore (k k' : nat) (h1 h2 : History) :
    Grows h k h1 -> (k <= k')%nat -> AddsOnly k' h1 h2 -> Grows h k' h2.

(** The claim that a cycle in which [CheckForUpdates] returns [false] ends
    in success with nothing further done. *)
Definition noUpdatesEndsInSuccess (E : Env) (s : St) : Prop :=
  forall s2,
    detectRun E s = Some (false, None, s2) ->
    fst (Process E s) = None /\ trace (snd (Process E s)) = trace s2.

(** A world in which the cancellation arrives once the history holds
    [n] events. *)
Definition cancelledFrom (n : nat) : Env :=
  world.env (mkAppConfig []) world.present (fun h => (n <=? length h)%nat)
    (fun _ _ => world.timerOnly) (fun _ => world.timerOnly).

(** ** The wait of the monitoring loop *)

Section TickPoints.

Variable E : Env.

(** Both cases of the [select] of the monitoring loop can proceed when it
    commits: a tick is waiting and the cancellation has arrived. *)
Definition bothReady (s : St) : Prop :=
  chanReady (tickReady E (trace s)) = true /\
  cancelled s || cancelArrived (tickReady E (trace s)) = true.

(** The state the [select] leaves in that case. *)
Definition afterTick (s : St) : St := mkSt (repo s) (EvTick :: trace s) (logs s) true.

(** The state in which [Process] is called when the tick was taken. *)
Definition lastCycleStart (s : St) : St :=
  snd (log LevelInfo "Scheduled check triggered." (afterTick s)).

(** The loop leaves through the cancellation case: it returns, and has
    done nothing but wait and log that it stops. *)
Definition exitsOnCancellation (fuel : nat) (s : St) : Prop :=
  fst (monitorLoop E fuel s) = Returned /\
  trace (snd (monitorLoop E fuel s)) = EvTick :: trace s /\
  logs (snd (monitorLoop E fuel s)) =
    (LevelInfo, "Monitoring stopping due to context cancellation signal.") :: logs s.

(** The claim that the cancellation wins whenever both are ready. *)
Definition cancellationWins (s : St) : Prop :=
  forall fuel, bothReady s -> exitsOnCancellation (S fuel) s.

End TickPoints.

(** A world without a working copy in which, at every wait of the loop, a
    tick is waiting, the cancellation has arrived, and the runtime takes
    the tick. *)
Definition tickTaken : Env :=
  world.env (mkAppConfig []) world.absent world.never
    (fun _ _ => world.timerOnly) (fun _ => mkReady true true false).

(** The same with a working copy, and with the runtime taking the
    cancellation. *)
Definition tickTakenAt (pick : bool) : Env :=
  world.env (mkAppConfig []) world.present world.never
    (fun _ _ => world.timerOnly) (fun _ => mkReady true true pick).

(** ** Vocabulary of the further properties *)

(** An entry with the five required fields set. *)
Definition hasRequired (r : RepositoryConfig) : Prop :=
  BasePath r <> EmptyString /\ GitURL r <> EmptyString /\ CloneDirName r <> EmptyString /\
  Branch r <> EmptyString /\ ServiceName r <> EmptyString.

(** An entry as a successful load leaves it. *)
Definition validEntry (r : RepositoryConfig) : Prop :=
  hasRequired r /\ ComposeFile r <> EmptyString /\ 0 < CheckIntervalSeconds r.

(** A raw run in which a program missing from the path cannot be started
    and every other command exits with the status [status]. *)
Definition rawRunner (status : Z) : History -> string -> string -> list string -> RawRun :=
  fun _ _ command _ =>
    if String.eqb command "nosuch" then
      mkRawRun EmptyString EmptyString (RunOtherError (SysError true "executable file not found"))
    else if status =? 0 then mkRawRun "out" EmptyString (RunNil (Some 0))
    else mkRawRun EmptyString "err" (RunExitError (Some status) (SysError false "exit status")).

Section MorePoints.

Variable E : Env.

(** The marker of a working copy that [ensureCloned] probes. *)
Definition gitDirPath (s : St) : string := Join E (workDirOf E s) ".git".

(** The answers of the runner to the commands of [PullChanges] and
    [BuildContainers] started in [s]. *)
Definition pullCommand (s : St) : Event :=
  EvExec (workDirOf E s) "git" (pullArgs (repo s)).

Definition pullAnswer (s : St) : ExecResult :=
  Execute (Executor (repo s)) (trace s) (workDirOf E s) "git" (pullArgs (repo s)).

Definition buildCommand (s : St) : Event :=
  EvExec (workDirOf E s) "docker" (buildArgs E (repo s) (workDirOf E s)).

Definition buildAnswer (s : St) : ExecResult :=
  Execute (Executor (repo s)) (trace s) (workDirOf E s) "docker"
    (buildArgs E (repo s) (workDirOf E s)).

(** The case the [select] of the settle wait takes, and the scale-down
    command with the answer of the runner to it. *)
Definition settleCase (s : St) : SelectCase :=
  goSelect (chanReady (settleReady E s))
    (cancelled s || cancelArrived (settleReady E s)) (pickDone (settleReady E s)).

Definition scaleDownCommand (s : St) : Event :=
  EvExec (workDirOf E s) "docker" (downArgs E (repo s) (workDirOf E s)).

Definition scaleDownAnswer (s : St) : ExecResult :=
  Execute (Executor (repo s)) (EvAfter healthCheckDelay :: upCommand E s :: trace s)
    (workDirOf E s) "docker" (downArgs E (repo s) (workDirOf E s)).

(** The state in which the monitor asks for the context after its first
    cycle. *)
Definition afterInitialCycle (s : St) : St :=
  snd (processAndLog E "Error during initial processing"
         (snd (log LevelInfo "Performing initial check..."
                 (snd (log LevelInfo "Starting monitoring for repository" s))))).

(** The state in which the monitor asks for the context after the cycle
    of a tick. *)
Definition afterTickCycle (s : St) : St :=
  snd (processAndLog E "Error during scheduled processing"
         (snd (log LevelInfo "Scheduled check triggered." (snd (selectTick E s))))).

End MorePoints.

(** ** The probes and the clone of [ensureCloned] *)

Section ClonePoints.

Variable E : Env.

(** The history after the probe of the marker, and the answer to the
    probe of the base path that follows. *)
Definition traceAfterMarker (s : St) : History := EvStat (gitDirPath E s) :: trace s.

Definition basePathProbe (s : St) : option error :=
  Stat E (traceAfterMarker s) (BasePath (Config (repo s))).

Definition traceAfterBaseProbe (s : St) : History :=
  EvStat (BasePath (Config (repo s))) :: traceAfterMarker s.

(** The clone command, and the answer of the runner to it when the base
    path was found. *)
Definition cloneCommand (s : St) : Event :=
  EvExec (BasePath (Config (repo s))) "git"
    ["clone"; "-b"; Branch (Config (repo s)); GitURL (Config (repo s));
     CloneDirName (Config (repo s))].

Definition cloneAnswer (s : St) : ExecResult :=
  Execute (Executor (repo s)) (traceAfterBaseProbe s) (BasePath (Config (repo s))) "git"
    (cloneArgs (repo s)).

(** The answer to the creation of a base path that was not found. *)
Definition mkdirAnswer (s : St) : option error :=
  MkdirAll E (traceAfterBaseProbe s) (BasePath (Config (repo s))) 493.

End ClonePoints.

(** A world in which nothing exists and no directory can be created. *)
Definition readOnly : Env :=
  mkEnv (fun p => (p, None)) world.pathJoin world.pathIsAbs world.trimSpace
    (fun _ => (EmptyString, None)) (fun _ => (mkAppConfig [], None))
    world.absent (fun _ _ _ => Some (SysError false "read-only file system"))
    world.never (fun _ _ => world.timerOnly) (fun _ => world.timerOnly).

(** A world in which the base path exists and the working copy does
    not. *)
Definition onlyBasePath : Env :=
  world.env (mkAppConfig [])
    (fun _ path => if String.eqb path "/srv/apps" then None
                   else Some (SysError true "no such file or directory"))
    world.never (fun _ _ => world.timerOnly) (fun _ => world.timerOnly).

(** What no method of the controller changes: the configuration and the
    runner stay, and an initialized controller stays initialized. *)
Definition keepsController (s s' : St) : Prop :=
  Config (repo s') = Config (repo s) /\
  Executor (repo s') = Executor (repo s) /\
  (isInitialised (repo s) = true -> isInitialised (repo s') = true).

(** A controller made from an entry without a base path, as no load
    would return it. *)
Definition unconfigured : St :=
  mkSt (NewRepository
          (mkRepositoryConfig EmptyString "https://example.org/shop.git" "shop" "main" "web"
             "docker-compose.yml" 300) reachable) [] [] false.

(** The error [getWorkingPath] returns for an entry without base path or
    directory name. *)
Definition pathConfigError : error :=
  Errorf "basePath or cloneDirName is empty in repository config" [].

(** The error of a method called before the controller is initialized. *)
Definition notInitialised (e : error) : Prop :=
  e = Errorf "repository not initialized, call EnsureCloned first" [] \/
  e = Errorf "repository not initialized" [] \/
  e = Errorf "repository not initialised" [].

(** A configuration file with one entry that lacks its branch, after a
    complete one. *)
Definition branchMissing : AppConfig :=
  mkAppConfig
    [mkRepositoryConfig "/srv/apps" "https://example.org/shop.git" "shop" "main" "web"
       EmptyString 0;
     mkRepositoryConfig "/srv/apps" "https://example.org/blog.git" "blog" EmptyString "site"
       EmptyString 0].

Definition branchMissingEnv : Env :=
  world.env branchMissing world.present world.never
    (fun _ _ => world.timerOnly) (fun _ => world.timerOnly).

(** A world in which the marker of the working copy cannot be probed. *)
Definition unreadable : Env :=
  world.env (mkAppConfig []) (fun _ _ => Some (SysError false "permission denied")) world.never
    (fun _ _ => world.timerOnly) (fun _ => world.timerOnly).

(** A controller that is behind its remote, on a runner whose commands
    all succeed but the scale-down (the compose [up] without
    [--no-deps]). *)
Definition scaleDownAnswers (down : ExecResult) : string -> list string -> ExecResult :=
  fun command args =>
    if String.eqb command "docker" && existsb (String.eqb "up") args
       && negb (existsb (String.eqb "--no-deps") args)
    then down else world.printed EmptyString.

Definition overScaled (down : ExecResult) : St :=
  world.initialised
    (world.scripted "abc123" "def456" (world.printed EmptyString) (scaleDownAnswers down)).

(** A runner on which the fetch fails and everything else succeeds. *)
Definition fetchFails : St :=
  world.initialised
    (world.scripted "abc123" "def456" (world.printed EmptyString)
       (fun _ args => if String.eqb (world.subcommand args) "fetch" then world.exited 128
                      else world.printed EmptyString)).

(** * Properties of the configuration loader *)

Section LoadConfigProps.

Variable E : Env.

Lemma checkEntry_defaulted (i : Z) (raw out : RepositoryConfig) :
  checkEntry i raw = inr out -> defaulted raw out.
Proof.
  unfold checkEntry, defaulted.
  repeat match goal with
         | |- context [if isEmpty ?x then inl _ else _] => destruct (isEmpty x); [discriminate|]
         end.
  intros H. injection H as <-.
  destruct (isEmpty (ComposeFile raw)); cbn;
    destruct (CheckIntervalSeconds raw <=? 0); cbn; repeat split; reflexivity.
Qed.

Lemma checkEntries_defaulted (repos : list RepositoryConfig) :
  forall (i : Z) (out : list RepositoryConfig),
    checkEntries i repos = inr out -> Forall2 defaulted repos out.
Proof.
  induction repos as [|raw rest IH]; intros i out H; cbn in H.
  - injection H as <-. constructor.
  - destruct (checkEntry i raw) as [e|raw'] eqn:Hraw; [discriminate|].
    destruct (checkEntries (i + 1) rest) as [e|rest'] eqn:Hrest; [discriminate|].
    injection H as <-. constructor.
    + eapply checkEntry_defaulted; eassumption.
    + eapply IH; eassumption.
Qed.

(** C8.  When [LoadConfig] succeeds, the entries it returns are, one by one
    and in order, the entries of the file with [docker-compose.yml] in place
    of an unset manifest name and 300 in place of an unset or non-positive
    poll interval; every other field is as it was in the file. *)
Theorem LoadConfig_applies_defaults (filePath : string) (cfg : AppConfig) :
  fst (LoadConfig E filePath) = Some cfg ->
  Forall2 defaulted (unmarshalled E filePath) (Repositories cfg).
Proof.
  unfold LoadConfig, unmarshalled.
  destruct (isEmpty filePath); [discriminate|].
  destruct (Abs E filePath) as [absFilePath e1]. cbn [fst].
  destruct e1; cbn [isNil negb]; [discriminate|].
  destruct (ReadFile E absFilePath) as [data e2]. cbn [fst].
  destruct e2; cbn [isNil negb]; [destruct (IsNotExist _); discriminate|].
  destruct (Unmarshal E data) as [raw e3]. cbn [fst].
  destruct e3; cbn [isNil negb]; [discriminate|].
  destruct (checkEntries 0 (Repositories raw)) as [e|out] eqn:Hout; [discriminate|].
  cbn. intros H. injection H as <-. cbn.
  eapply checkEntries_defaulted; eassumption.
Qed.

(** ** Further properties of [LoadConfig] *)

Lemma isEmpty_false (x : string) : isEmpty x = false <-> x <> EmptyString.
Proof. unfold isEmpty. apply String.eqb_neq. Qed.

Lemma isEmpty_true (x : string) : isEmpty x = true <-> x = EmptyString.
Proof. unfold isEmpty. apply String.eqb_eq. Qed.

Lemma checkEntry_ok_iff (i : Z) (r : RepositoryConfig) :
  (exists out, checkEntry i r = inr out) <-> hasRequired r.
Proof.
  unfold checkEntry, hasRequired. split.
  - intros [out H].
    repeat match type of H with
           | context [if isEmpty ?x then inl _ else _] =>
               let Hx := fresh "Hx" in
               destruct (isEmpty x) eqn:Hx; [discriminate|apply isEmpty_false in Hx]
           end.
    tauto.
  - intros (H1 & H2 & H3 & H4 & H5).
    apply isEmpty_false in H1, H2, H3, H4, H5. rewrite H1, H2, H3, H4, H5.
    eexists. reflexivity.
Qed.

Lemma checkEntry_error_some (i : Z) (r : RepositoryConfig) (e : option error) :
  checkEntry i r = inl e -> e <> None.
Proof.
  unfold checkEntry.
  repeat match goal with
         | |- context [if isEmpty ?x then inl _ else _] =>
             destruct (isEmpty x); [intros H; injection H as <-; discriminate|]
         end.
  discriminate.
Qed.

(** A failed pass of the loop stopped at the first entry that lacks a
    required field, and its error is the one of that entry at its index. *)
Lemma checkEntries_first_failure (repos : list RepositoryConfig) :
  forall (k : Z) (e : option error),
    checkEntries k repos = inl e ->
    exists (n : nat) (r : RepositoryConfig),
      nth_error repos n = Some r /\
      checkEntry (k + Z.of_nat n) r = inl e /\
      Forall hasRequired (firstn n repos).
Proof.
  induction repos as [|r rest IH]; intros k e H; cbn in H; [discriminate|].
  destruct (checkEntry k r) as [e0|r'] eqn:Hr.
  - injection H as <-. exists 0%nat, r. cbn. rewrite Z.add_0_r. repeat split; [exact Hr|constructor].
  - destruct (checkEntries (k + 1) rest) as [e1|rest'] eqn:Hrest; [|discriminate].
    injection H as <-. destruct (IH _ _ Hrest) as (n & r1 & Hn & Hc & Hall).
    exists (S n), r1. cbn [nth_error firstn]. split; [exact Hn|]. split.
    + replace (k + Z.of_nat (S n)) with (k + 1 + Z.of_nat n) by lia. exact Hc.
    + constructor; [|exact Hall]. apply (checkEntry_ok_iff k). eexists. exact Hr.
Qed.

Lemma checkEntries_ok_iff (repos : list RepositoryConfig) :
  forall k, (exists out, checkEntries k repos = inr out) <-> Forall hasRequired repos.
Proof.
  induction repos as [|r rest IH]; intros k; cbn.
  - split; [constructor|eexists; reflexivity].
  - split.
    + intros [out H].
      destruct (checkEntry k r) as [e0|r'] eqn:Hr; [discriminate|].
      destruct (checkEntries (k + 1) rest) as [e1|rest'] eqn:Hrest; [discriminate|].
      constructor.
      * apply (checkEntry_ok_iff k). eexists. exact Hr.
      * apply (IH (k + 1)). eexists. exact Hrest.
    + intros H. inversion H as [|r0 l0 Hr Hrest]; subst.
      apply (checkEntry_ok_iff k) in Hr. destruct Hr as [r' ->].
      apply (IH (k + 1)) in Hrest. destruct Hrest as [rest' ->].
      eexists. reflexivity.
Qed.

(** X1.  [LoadConfig] returns a configuration or an error, never both and
    never neither. *)
Theorem LoadConfig_config_xor_error (filePath : string) :
  fst (LoadConfig E filePath) = None <-> snd (LoadConfig E filePath) <> None.
Proof.
  unfold LoadConfig.
  destruct (isEmpty filePath); [cbn; split; [discriminate|reflexivity]|].
  destruct (Abs E filePath) as [absFilePath [e1|]]; cbn [isNil negb];
    [cbn; split; [discriminate|reflexivity]|].
  destruct (ReadFile E absFilePath) as [data [e2|]]; cbn [isNil negb];
    [destruct (IsNotExist _); cbn; split; [discriminate|reflexivity| discriminate|reflexivity]|].
  destruct (Unmarshal E data) as [raw [e3|]]; cbn [isNil negb];
    [cbn; split; [discriminate|reflexivity]|].
  destruct (checkEntries 0 (Repositories raw)) as [e|out] eqn:Hout; cbn.
  - destruct (checkEntries_first_failure _ _ _ Hout) as (n & r & _ & Hc & _).
    apply checkEntry_error_some in Hc. split; [intros _; exact Hc|reflexivity].
  - split; [discriminate|intros H; now contradiction H].
Qed.

(** X2.  [LoadConfig] succeeds exactly when the path is not empty, the
    path can be made absolute, the file can be read and unmarshalled, and
    every entry has its five required fields; a file without entries
    loads. *)
Theorem LoadConfig_succeeds_iff (filePath : string) :
  snd (LoadConfig E filePath) = None <->
  filePath <> EmptyString /\
  snd (Abs E filePath) = None /\
  snd (ReadFile E (fst (Abs E filePath))) = None /\
  snd (Unmarshal E (fst (ReadFile E (fst (Abs E filePath))))) = None /\
  Forall hasRequired (unmarshalled E filePath).
Proof.
  unfold LoadConfig, unmarshalled.
  destruct (isEmpty filePath) eqn:Hp.
  { apply isEmpty_true in Hp. cbn. split; [discriminate|intros [H _]; contradiction]. }
  apply isEmpty_false in Hp.
  destruct (Abs E filePath) as [absFilePath [e1|]]; cbn [isNil negb fst snd].
  { split; [discriminate|intros (_ & H & _); discriminate]. }
  destruct (ReadFile E absFilePath) as [data [e2|]]; cbn [isNil negb fst snd].
  { destruct (IsNotExist _); (split; [discriminate|intros (_ & _ & H & _); discriminate]). }
  destruct (Unmarshal E data) as [raw [e3|]]; cbn [isNil negb fst snd].
  { split; [discriminate|intros (_ & _ & _ & H & _); discriminate]. }
  destruct (checkEntries 0 (Repositories raw)) as [e|out] eqn:Hout; cbn.
  - split.
    + intros ->. destruct (checkEntries_first_failure _ _ _ Hout) as (n & r & _ & Hc & _).
      now apply checkEntry_error_some in Hc.
    + intros (_ & _ & _ & _ & Hall). apply (checkEntries_ok_iff _ 0) in Hall.
      destruct Hall as [out Hall]. congruence.
  - split; [|reflexivity]. intros _. repeat split; try assumption.
    apply (checkEntries_ok_iff _ 0). eexists. exact Hout.
Qed.

Lemma checkEntry_valid (i : Z) (raw out : RepositoryConfig) :
  checkEntry i raw = inr out -> validEntry out.
Proof.
  intros H.
  assert (Hreq : hasRequired raw) by (apply (checkEntry_ok_iff i); eexists; exact H).
  apply checkEntry_defaulted in H. unfold defaulted in H. unfold validEntry, hasRequired in *.
  destruct H as (-> & -> & -> & -> & -> & Hc & Hi). split; [exact Hreq|]. split.
  - rewrite Hc. destruct (isEmpty (ComposeFile raw)) eqn:He; [discriminate|].
    now apply isEmpty_false.
  - rewrite Hi. destruct (Z.leb_spec (CheckIntervalSeconds raw) 0); lia.
Qed.

Lemma checkEntries_valid (repos : list RepositoryConfig) :
  forall (k : Z) (out : list RepositoryConfig),
    checkEntries k repos = inr out -> Forall validEntry out.
Proof.
  induction repos as [|r rest IH]; intros k out H; cbn in H.
  - injection H as <-. constructor.
  - destruct (checkEntry k r) as [e0|r'] eqn:Hr; [discriminate|].
    destruct (checkEntries (k + 1) rest) as [e1|rest'] eqn:Hrest; [discriminate|].
    injection H as <-. constructor; [eapply checkEntry_valid; eassumption|eapply IH; eassumption].
Qed.

(** A configuration that [LoadConfig] returns is what the loop made of
    the entries of the file. *)
Lemma LoadConfig_entries (filePath : string) (cfg : AppConfig) :
  fst (LoadConfig E filePath) = Some cfg ->
  checkEntries 0 (unmarshalled E filePath) = inr (Repositories cfg).
Proof.
  unfold LoadConfig, unmarshalled.
  destruct (isEmpty filePath); [discriminate|].
  destruct (Abs E filePath) as [absFilePath [e1|]]; cbn [isNil negb fst]; [discriminate|].
  destruct (ReadFile E absFilePath) as [data [e2|]]; cbn [isNil negb fst];
    [destruct (IsNotExist _); discriminate|].
  destruct (Unmarshal E data) as [raw [e3|]]; cbn [isNil negb fst]; [discriminate|].
  destruct (checkEntries 0 (Repositories raw)) as [e|out] eqn:Hout; [discriminate|].
  cbn. intros H. injection H as <-. reflexivity.
Qed.

(** X3.  Every entry of a configuration that [LoadConfig] returns has its
    five required fields and a manifest name set, and a positive poll
    interval. *)
Theorem LoadConfig_entries_valid (filePath : string) (cfg : AppConfig) :
  fst (LoadConfig E filePath) = Some cfg ->
  Forall validEntry (Repositories cfg).
Proof.
  intros H. apply LoadConfig_entries in H.
  eapply checkEntries_valid. exact H.
Qed.

(** X4.  When the load fails on the entries, the error is the one of the
    first entry that lacks a required field, raised at the index of that
    entry; the entries before it are complete. *)
Theorem checkEntries_reports_first (repos : list RepositoryConfig) (e : option error) :
  checkEntries 0 repos = inl e ->
  exists (n : nat) (r : RepositoryConfig),
    nth_error repos n = Some r /\
    ~ hasRequired r /\
    checkEntry (Z.of_nat n) r = inl e /\
    Forall hasRequired (firstn n repos).
Proof.
  intros H. destruct (checkEntries_first_failure _ _ _ H) as (n & r & Hn & Hc & Hall).
  exists n, r. cbn in Hc. repeat split; try assumption.
  intros Hreq. apply (checkEntry_ok_iff (Z.of_nat n)) in Hreq. destruct Hreq as [out Hout].
  congruence.
Qed.

(** X5.  Applying the defaults is idempotent: the entries a pass of the
    loop returns go through a second pass unchanged. *)
Theorem checkEntries_idempotent (repos out : list RepositoryConfig) (i j : Z) :
  checkEntries i repos = inr out -> checkEntries j out = inr out.
Proof.
  revert out i j. induction repos as [|r rest IH]; intros out i j H; cbn in H.
  - injection H as <-. reflexivity.
  - destruct (checkEntry i r) as [e0|r'] eqn:Hr; [discriminate|].
    destruct (checkEntries (i + 1) rest) as [e1|rest'] eqn:Hrest; [discriminate|].
    injection H as <-. cbn. rewrite (IH _ _ (j + 1) Hrest).
    destruct (checkEntry_valid _ _ _ Hr) as ((H1 & H2 & H3 & H4 & H5) & Hc & Hi).
    unfold checkEntry.
    apply isEmpty_false in H1, H2, H3, H4, H5, Hc. rewrite H1, H2, H3, H4, H5, Hc.
    destruct (Z.leb_spec (CheckIntervalSeconds r') 0); [lia|].
    reflexivity.
Qed.

End LoadConfigProps.

Lemma LoadConfig_applies_defaults_witness :
  fst (LoadConfig twoEntriesEnv "rivet.yaml") = Some twoEntriesLoaded /\
  Forall2 defaulted (unmarshalled twoEntriesEnv "rivet.yaml") (Repositories twoEntriesLoaded).
Proof.
  split; [reflexivity|].
  apply (LoadConfig_applies_defaults twoEntriesEnv "rivet.yaml"). reflexivity.
Defined.

(** * Properties of the repository controller *)

Section RepositoryProps.

Variable E : Env.

(** [getWorkingPath] touches nothing but the cached path. *)
Lemma getWorkingPath_frame (s : St) :
  let s' := snd (getWorkingPath E s) in
  trace s' = trace s /\ logs s' = logs s /\ cancelled s' = cancelled s /\
  Config (repo s') = Config (repo s) /\ Executor (repo s') = Executor (repo s) /\
  isInitialised (repo s') = isInitialised (repo s).
Proof.
  unfold getWorkingPath, bind, self, ret, setWorkingPath. cbn.
  destruct (isEmpty (workingPath (repo s))); cbn; [|tauto].
  destruct (isEmpty (BasePath (Config (repo s))) || isEmpty (CloneDirName (Config (repo s))));
    cbn; [tauto|].
  destruct (Abs E (BasePath (Config (repo s)))) as [p [e|]]; cbn; tauto.
Qed.

(** Brings a run of a method on an initialized controller, kept in the
    hypothesis [H], to the point after [getWorkingPath], with both states
    taken apart. *)
Ltac enter_method H s Hi :=
  unfold bind at 1 in H; cbn [self] in H; rewrite Hi in H; cbn [negb] in H;
  unfold bind at 1 in H;
  let Hfr := fresh "Hfr" in
  pose proof (getWorkingPath_frame s) as Hfr; cbv zeta in Hfr;
  unfold workDirOf in *;
  let wd := fresh "wd" in
  destruct (getWorkingPath E s) as [[wd ?] [[? ? ? ?] ? ? ?]];
  destruct s as [[? ? ? ?] ? ? ?];
  cbn [fst snd] in *; cbn in Hfr;
  destruct Hfr as (-> & -> & -> & -> & -> & ->);
  unfold bind, log, execute in H; cbn in *.

Ltac unfold_answers :=
  cbv zeta;
  unfold succeeded, ancestorAnswer, localCommit, remoteCommit, traceAfterRemote, remoteAnswer,
    traceAfterLocal, localAnswer, traceAfterFetch, fetchAnswer in *.

(** With equal identifiers the answer is [false] after three commands. *)
Lemma CheckForUpdates_same (s : St) :
  isInitialised (repo s) = true ->
  succeeded (fetchAnswer E s) -> succeeded (localAnswer E s) ->
  succeeded (remoteAnswer E s) ->
  localCommit E s = remoteCommit E s ->
  fst (CheckForUpdates E s) = (false, None) /\
  trace (snd (CheckForUpdates E s)) = traceAfterRemote E s.
Proof.
  intros Hi Hf Hl Hr Heq. unfold_answers.
  destruct Hf as [Hf1 Hf2], Hl as [Hl1 Hl2], Hr as [Hr1 Hr2].
  destruct (CheckForUpdates E s) as [res s'] eqn:Hrun. unfold CheckForUpdates in Hrun.
  enter_method Hrun s Hi.
  rewrite Hf1, Hf2 in Hrun. cbn in Hrun.
  rewrite Hl1, Hl2 in Hrun. cbn in Hrun.
  rewrite Hr1, Hr2 in Hrun. cbn in Hrun.
  rewrite Heq, String.eqb_refl in Hrun. cbn in Hrun.
  injection Hrun as <- <-. split; reflexivity.
Qed.

(** With different identifiers the answer is decided by the fourth
    command, the ancestor check. *)
Lemma CheckForUpdates_differ (s : St) :
  isInitialised (repo s) = true ->
  succeeded (fetchAnswer E s) -> succeeded (localAnswer E s) ->
  succeeded (remoteAnswer E s) ->
  localCommit E s <> remoteCommit E s ->
  let a := ancestorAnswer E s in
  fst (CheckForUpdates E s) =
    (if negb (isNil (execErr a)) && negb (exitCode a =? 0) && negb (exitCode a =? 1) then
       (false, Some (Errorf "git merge-base execution failed (exit %d): %w. Stderr: %s"
                       [ArgD (exitCode a); ArgW (execErr a); ArgS (stderr a)]))
     else if exitCode a =? 0 then (true, None) else (false, None)) /\
  trace (snd (CheckForUpdates E s)) =
    EvExec (workDirOf E s) "git" (ancestorArgs (localCommit E s) (remoteCommit E s))
      :: traceAfterRemote E s.
Proof.
  intros Hi Hf Hl Hr Hne. unfold_answers.
  destruct Hf as [Hf1 Hf2], Hl as [Hl1 Hl2], Hr as [Hr1 Hr2].
  apply String.eqb_neq in Hne.
  destruct (CheckForUpdates E s) as [res s'] eqn:Hrun. unfold CheckForUpdates in Hrun.
  enter_method Hrun s Hi.
  rewrite Hf1, Hf2 in Hrun. cbn in Hrun.
  rewrite Hl1, Hl2 in Hrun. cbn in Hrun.
  rewrite Hr1, Hr2 in Hrun. cbn in Hrun.
  rewrite Hne in Hrun. cbn in Hrun.
  match type of Hrun with context [Execute ?ex ?h ?w ?c ?ar] =>
    destruct (Execute ex h w c ar) as [out errs code [e|]] end;
    cbn in *; destruct (code =? 0); cbn in *; try destruct (code =? 1); cbn in *;
    injection Hrun as <- <-; split; reflexivity.
Qed.

(** C1.  On an initialized controller whose fetch and two [rev-parse]
    commands succeed: if the two resolved identifiers are equal,
    [CheckForUpdates] returns [false] and the history ends with the second
    [rev-parse] (no ancestor check is run); if they differ, it returns
    [true] exactly when the ancestor check exits 0, and [false] with a nil
    error when the ancestor check exits 1. *)
Theorem CheckForUpdates_detects (s : St) :
  isInitialised (repo s) = true ->
  succeeded (fetchAnswer E s) -> succeeded (localAnswer E s) ->
  succeeded (remoteAnswer E s) ->
  (localCommit E s = remoteCommit E s ->
     fst (CheckForUpdates E s) = (false, None) /\
     trace (snd (CheckForUpdates E s)) = traceAfterRemote E s) /\
  (localCommit E s <> remoteCommit E s ->
     (fst (CheckForUpdates E s) = (true, None) <-> exitCode (ancestorAnswer E s) = 0) /\
     (exitCode (ancestorAnswer E s) = 1 -> fst (CheckForUpdates E s) = (false, None))).
Proof.
  intros Hi Hf Hl Hr. split.
  - intros Heq. now apply CheckForUpdates_same.
  - intros Hne.
    destruct (CheckForUpdates_differ s Hi Hf Hl Hr Hne) as [Hres _]. cbv zeta in Hres.
    rewrite Hres. clear Hres.
    destruct (ancestorAnswer E s) as [out errs code err]. cbn.
    destruct (Z.eqb_spec code 0) as [->|H0]; cbn.
    + rewrite andb_false_r. cbn. split; [tauto|discriminate].
    + destruct (Z.eqb_spec code 1) as [->|H1]; cbn.
      * rewrite andb_false_r. split; [|reflexivity].
        split; [discriminate|intros; discriminate].
      * rewrite andb_true_r. split; [|contradiction].
        destruct (negb (isNil err)); split; try discriminate; contradiction.
Qed.

(** C2.  On an initialized controller whose runner honours its contract:
    when the identifiers differ and the ancestor check ends with an exit
    code other than 0 and 1 (a command that could not be started is reported
    with exit code -1), [CheckForUpdates] returns the merge-base failure,
    which carries the exit code, the runner's error and the captured
    stderr; it does not return [false] with a nil error. *)
Theorem CheckForUpdates_ancestor_failure (s : St) :
  isInitialised (repo s) = true ->
  RunnerContract (Executor (repo s)) ->
  succeeded (fetchAnswer E s) -> succeeded (localAnswer E s) ->
  succeeded (remoteAnswer E s) ->
  localCommit E s <> remoteCommit E s ->
  exitCode (ancestorAnswer E s) <> 0 ->
  exitCode (ancestorAnswer E s) <> 1 ->
  let a := ancestorAnswer E s in
  fst (CheckForUpdates E s) =
    (false, Some (Errorf "git merge-base execution failed (exit %d): %w. Stderr: %s"
                    [ArgD (exitCode a); ArgW (execErr a); ArgS (stderr a)])) /\
  execErr a <> None /\
  fst (CheckForUpdates E s) <> (false, None).
Proof.
  intros Hi Hc Hf Hl Hr Hne H0 H1. cbv zeta.
  destruct (CheckForUpdates_differ s Hi Hf Hl Hr Hne) as [Hres _]. cbv zeta in Hres.
  assert (Herr : execErr (ancestorAnswer E s) <> None).
  { intros Hnil. apply H0. unfold ancestorAnswer in *. now apply Hc. }
  set (a := ancestorAnswer E s) in *. rewrite Hres.
  apply Z.eqb_neq in H0, H1. rewrite H0, H1.
  destruct (execErr a); [|contradiction]. cbn.
  repeat split; discriminate.
Qed.

(** Outside the contract the same code path gives [false]: a runner that
    reports exit code 2 together with a nil error is not treated as a
    failure. *)
Example CheckForUpdates_nil_error_exit_2 :
  fst (CheckForUpdates world.quiet (behind (mkExecResult EmptyString EmptyString 2 None)))
  = (false, None).
Proof. reflexivity. Qed.

Lemma failed_test (a : ExecResult) :
  failed a -> negb (isNil (execErr a)) || negb (exitCode a =? 0) = true.
Proof.
  intros [H|H].
  - destruct (execErr a); [reflexivity|contradiction].
  - apply Z.eqb_neq in H. rewrite H. apply orb_true_r.
Qed.

Lemma succeeded_test (a : ExecResult) :
  succeeded a -> negb (isNil (execErr a)) || negb (exitCode a =? 0) = false.
Proof. intros [-> ->]. reflexivity. Qed.

(** C6.  On an initialized controller, when the scale-up command comes
    back with a non-nil error or a non-zero exit code, [DeployContainers]
    returns the scale-up failure with the exit code, the runner's error and
    the captured stderr, and the scale-up command is the only thing it adds
    to the history: neither the settle wait nor the scale-down command is
    performed. *)
Theorem DeployContainers_scale_up_failure (s : St) :
  isInitialised (repo s) = true ->
  failed (upAnswer E s) ->
  fst (DeployContainers E s) =
    Some (Errorf "docker compose scale up failed (exit %d): %w. Stderr: %s"
            [ArgD (exitCode (upAnswer E s)); ArgW (execErr (upAnswer E s));
             ArgS (stderr (upAnswer E s))]) /\
  trace (snd (DeployContainers E s)) = upCommand E s :: trace s.
Proof.
  intros Hi Hup. apply failed_test in Hup. unfold upAnswer, upCommand in *.
  destruct (DeployContainers E s) as [res s'] eqn:Hrun. unfold DeployContainers in Hrun.
  enter_method Hrun s Hi.
  rewrite Hup in Hrun. cbn in Hrun.
  injection Hrun as <- <-. split; reflexivity.
Qed.

(** C7.  On an initialized controller whose scale-up succeeded, when the
    cancellation reaches the context while the timer of the settle wait has
    not fired, [DeployContainers] returns the cancellation and the history
    ends with the wait: no scale-down command is issued. *)
Theorem DeployContainers_cancelled_in_wait (s : St) :
  isInitialised (repo s) = true ->
  succeeded (upAnswer E s) ->
  chanReady (settleReady E s) = false ->
  cancelledInWait E s ->
  fst (DeployContainers E s) = Some Canceled /\
  trace (snd (DeployContainers E s)) = EvAfter healthCheckDelay :: upCommand E s :: trace s.
Proof.
  intros Hi Hup Htimer Hcancel. apply succeeded_test in Hup.
  unfold cancelledInWait, settleReady, upAnswer, upCommand in *.
  destruct (DeployContainers E s) as [res s'] eqn:Hrun. unfold DeployContainers in Hrun.
  enter_method Hrun s Hi.
  rewrite Hup in Hrun. cbn in Hrun.
  unfold selectAfter, ctxErr in Hrun. cbn in Hrun.
  rewrite Htimer, Hcancel in Hrun. cbn in Hrun.
  injection Hrun as <- <-. split; reflexivity.
Qed.

(** Takes the conditions of the run kept in [H] apart, one by one. *)
Ltac split_run H :=
  repeat match type of H with
         | context [if ?c then _ else _] => destruct c eqn:?; cbn in H
         | context [match ?c with Some _ => _ | None => _ end] => destruct c eqn:?; cbn in H
         | context [match ?c with CaseChan => _ | CaseDone => _ end] =>
             destruct c eqn:?; cbn in H
         end.

(** What one call of [ensureCloned] can do. *)
Lemma ensureCloned_cases (s : St) :
  (isInitialised (repo s) = true /\ ensureCloned E s = (None, s)) \/
  (isInitialised (repo s) = false /\
   (clones (trace (snd (ensureCloned E s))) <= clones (trace s) + 1)%nat /\
   ((fst (ensureCloned E s) = None /\ isInitialised (repo (snd (ensureCloned E s))) = true) \/
    (fst (ensureCloned E s) <> None /\
     isInitialised (repo (snd (ensureCloned E s))) = false))).
Proof.
  destruct (isInitialised (repo s)) eqn:Hi.
  - left. split; [reflexivity|].
    unfold ensureCloned, bind. cbn [self]. rewrite Hi. reflexivity.
  - right. split; [reflexivity|].
    destruct (ensureCloned E s) as [res s'] eqn:Hrun. cbn [fst snd].
    unfold ensureCloned in Hrun. unfold bind at 1 in Hrun. cbn [self] in Hrun.
    rewrite Hi in Hrun. unfold bind at 1 in Hrun.
    pose proof (getWorkingPath_frame s) as Hfr. cbv zeta in Hfr.
    destruct (getWorkingPath E s) as [[wd e] [[cfg0 ex0 wp0 ini0] t0 l0 c0]].
    destruct s as [[cfg ex wp ini] t l c].
    cbn in Hfr, Hi. destruct Hfr as (-> & -> & -> & -> & -> & ->). subst ini.
    unfold ensureBasePath, bind, self, ret, log, stat, mkdirAll, execute, setInitialised
      in Hrun.
    cbn in Hrun. split_run Hrun.
    all: injection Hrun as <- <-; unfold clones; cbn; split; [lia|];
      first [left; split; reflexivity | right; split; [discriminate|reflexivity]].
Qed.

(** C5, as the code has it.  A call of [ensureCloned] on an initialized
    controller returns a nil error at once and leaves the state, and so the
    history, as it was.  A call that returns a nil error leaves the
    controller initialized, so that the call after it issues nothing, and
    the two calls together issue the clone command at most once.  A call
    that fails leaves the initialized flag false.  One call never issues
    more than one clone command. *)
Theorem ensureCloned_idempotent (s : St) :
  (isInitialised (repo s) = true -> ensureCloned E s = (None, s)) /\
  (fst (ensureCloned E s) = None ->
     ensureCloned E (snd (ensureCloned E s)) = (None, snd (ensureCloned E s)) /\
     clonesAtMostOnce E s) /\
  (fst (ensureCloned E s) <> None -> isInitialised (repo (snd (ensureCloned E s))) = false) /\
  (clones (trace (snd (ensureCloned E s))) <= clones (trace s) + 1)%nat.
Proof.
  assert (Hdone : forall s1, isInitialised (repo s1) = true -> ensureCloned E s1 = (None, s1)).
  { intros s1 H1. destruct (ensureCloned_cases s1) as [[_ H]|[H _]]; [exact H|congruence]. }
  destruct (ensureCloned_cases s) as [[Hi Hrun]|(Hi & Hcount & Hres)].
  - split; [intros _; exact Hrun|]. rewrite Hrun. cbn [fst snd].
    split; [|split].
    + intros _. split; [exact Hrun|]. unfold clonesAtMostOnce, ensureClonedTwice.
      rewrite Hrun. cbn [snd]. rewrite Hrun. cbn [snd]. lia.
    + intros H. now contradiction H.
    + lia.
  - split; [congruence|]. split; [|split].
    + intros Hok. destruct Hres as [[_ Hinit]|[Hbad _]]; [|contradiction].
      pose proof (Hdone _ Hinit) as Hsecond. split; [exact Hsecond|].
      unfold clonesAtMostOnce, ensureClonedTwice. rewrite Hsecond. exact Hcount.
    + intros Hbad. destruct Hres as [[Hok _]|[_ Hflag]]; [contradiction|exact Hflag].
    + exact Hcount.
Qed.

(** ** [Process] *)

Lemma ctxErr_some (s : St) (e : error) (s' : St) :
  ctxErr E s = (Some e, s') ->
  e = Canceled /\ s' = mkSt (repo s) (trace s) (logs s) true.
Proof.
  unfold ctxErr. destruct (cancelled s || cancelArrives E (trace s)); intros H;
    inversion H; subst; split; reflexivity.
Qed.

Lemma ctxErr_none (s s' : St) :
  ctxErr E s = (None, s') -> s' = mkSt (repo s) (trace s) (logs s) false.
Proof.
  unfold ctxErr. destruct (cancelled s || cancelArrives E (trace s)); intros H;
    inversion H; subst; reflexivity.
Qed.

(** The check after a step: go on when [ctx.Err()] is nil, return the
    cancellation otherwise. *)
Lemma checkCtx_run (msg : string) (k : M (option error)) (s : St) :
  checkCtx E msg k s =
  match ctxErr E s with
  | (None, s') => k s'
  | (Some _, s') => (Some Canceled, snd (log LevelInfo msg s'))
  end.
Proof.
  unfold checkCtx, bind. destruct (ctxErr E s) as [[e|] s'] eqn:Hc; cbn; [|reflexivity].
  apply ctxErr_some in Hc. destruct Hc as [_ ->]. reflexivity.
Qed.

Ltac unfold_stages :=
  unfold stepRun, deployRun, deployStart, buildRun, buildStart, pullRun, pullStart,
    detectRun, detectStart, proceed, option_map.

(** Takes the next call of the run apart; the hypotheses about the run are
    kept in the goal so that they follow. *)
Ltac next_call :=
  match goal with
  | |- context [ensureCloned E ?x] => destruct (ensureCloned E x) as [[?|] ?] eqn:?
  | |- context [CheckForUpdates E ?x] => destruct (CheckForUpdates E x) as [[[|] [?|]] ?] eqn:?
  | |- context [PullChanges E ?x] => destruct (PullChanges E x) as [[?|] ?] eqn:?
  | |- context [BuildContainers E ?x] => destruct (BuildContainers E x) as [[?|] ?] eqn:?
  | |- context [DeployContainers E ?x] => destruct (DeployContainers E x) as [[?|] ?] eqn:?
  | |- context [ctxErr E ?x] =>
      let Hc := fresh "Hc" in
      let Hc' := fresh "Hc" in
      destruct (ctxErr E x) as [[?|] ?] eqn:Hc; pose proof Hc as Hc';
      [apply ctxErr_some in Hc'; destruct Hc' as [-> ->]
      |apply ctxErr_none in Hc'; subst]
  end;
  cbn -[ensureCloned CheckForUpdates PullChanges BuildContainers DeployContainers ctxErr].

Ltac run_process :=
  unfold Process, bind; repeat rewrite checkCtx_run;
  cbn -[ensureCloned CheckForUpdates PullChanges BuildContainers DeployContainers ctxErr];
  repeat (next_call; repeat rewrite checkCtx_run).

Lemma Process_short_circuit (s : St) (step : Step) (e : error) (s' : St) :
  stepRun E step s = Some (Some e, s') ->
  fst (Process E s) = Some (failureOf step e) /\ trace (snd (Process E s)) = trace s'.
Proof.
  destruct step; unfold_stages; run_process.
  all: intros H; inversion H; subst; split; reflexivity.
Qed.

Lemma Process_completes (s s' : St) :
  stepRun E StepDeploy s = Some (None, s') ->
  fst (ctxErr E s') = None ->
  fst (Process E s) = None /\ trace (snd (Process E s)) = trace s'.
Proof.
  unfold_stages; run_process.
  all: intros H; inversion H; subst; cbn; intros; try congruence; split; reflexivity.
Qed.

(** ** The order of the commands *)

Lemma AddsOnly_commands (k : nat) (h h' : History) :
  AddsOnly k h h' ->
  exists new, commands h' = (commands h ++ new)%list /\ Forall (fun r => r = k) (map rankOf new).
Proof.
  induction 1 as [|workingDir command args h' Hk _ [new [Hnew Hall]]
                  |path h' _ IH|path perm h' _ IH|d h' _ IH]; try exact IH.
  - exists []. rewrite app_nil_r. split; [reflexivity|constructor].
  - exists (new ++ [(command, args)])%list. cbn. rewrite Hnew, app_assoc. split; [reflexivity|].
    rewrite map_app. apply Forall_app. split; [exact Hall|]. repeat constructor. exact Hk.
Qed.

Lemma inOrder_const (k : nat) (l : list nat) :
  Forall (fun r => r = k) l -> forall lo, (lo <= k)%nat -> inOrder lo l = true.
Proof.
  induction 1 as [|r l -> _ IH]; intros lo Hlo; cbn; [reflexivity|].
  rewrite IH by lia. rewrite andb_true_r. now apply Nat.leb_le.
Qed.

Lemma inOrder_app (k : nat) (l1 l2 : list nat) :
  Forall (fun r => r = k) l2 ->
  forall lo, inOrder lo l1 = true -> Forall (fun r => (r <= k)%nat) l1 -> (lo <= k)%nat ->
  inOrder lo (l1 ++ l2)%list = true.
Proof.
  intros H2. induction l1 as [|r l1 IH]; intros lo Hord Hle Hlo; cbn.
  - now apply inOrder_const with (k := k).
  - cbn in Hord. apply andb_true_iff in Hord. destruct Hord as [Hr Hrest].
    inversion Hle; subst. rewrite Hr. cbn. now apply IH.
Qed.

(** A history that grew as [Grows] says shows its new commands in the
    order of the steps. *)
Lemma Grows_inOrder (h : History) (k : nat) (h' : History) :
  Grows h k h' ->
  (1 <= k)%nat /\
  exists new, commands h' = (commands h ++ new)%list /\
              inOrder 1 (map rankOf new) = true /\
              Forall (fun r => (r <= k)%nat) (map rankOf new).
Proof.
  induction 1 as [k Hk|k k' h1 h2 _ [Hk [new [Hnew [Hord Hle]]]] Hkk Hadd].
  - split; [exact Hk|]. exists []. rewrite app_nil_r. repeat split; constructor.
  - split; [lia|].
    destruct (AddsOnly_commands _ _ _ Hadd) as [more [Hmore Hall]].
    exists (new ++ more)%list. rewrite Hmore, Hnew, app_assoc. split; [reflexivity|].
    rewrite map_app. split.
    + now apply inOrder_app with (k := k'); [| |eapply Forall_impl; [|exact Hle]; cbn; lia|lia].
    + apply Forall_app. split.
      * eapply Forall_impl; [|exact Hle]. cbn. lia.
      * eapply Forall_impl; [|exact Hall]. cbn. lia.
Qed.

Ltac adds_only := cbn; repeat (constructor; try reflexivity).

Lemma ensureCloned_adds (s : St) : AddsOnly 1 (trace s) (trace (snd (ensureCloned E s))).
Proof.
  destruct (isInitialised (repo s)) eqn:Hi.
  - unfold ensureCloned, bind. cbn [self]. rewrite Hi. constructor.
  - destruct (ensureCloned E s) as [res s'] eqn:Hrun. cbn [fst snd].
    unfold ensureCloned in Hrun. unfold bind at 1 in Hrun. cbn [self] in Hrun.
    rewrite Hi in Hrun. unfold bind at 1 in Hrun.
    pose proof (getWorkingPath_frame s) as Hfr. cbv zeta in Hfr.
    destruct (getWorkingPath E s) as [[wd e] [[cfg0 ex0 wp0 ini0] t0 l0 c0]].
    destruct s as [[cfg ex wp ini] t l c].
    cbn in Hfr, Hi. destruct Hfr as (-> & -> & -> & -> & -> & ->). subst ini.
    unfold ensureBasePath, bind, self, ret, log, stat, mkdirAll, execute, setInitialised
      in Hrun.
    cbn in Hrun. split_run Hrun.
    all: injection Hrun as <- <-; adds_only.
Qed.

(** The common shape of the four methods that need an initialized
    controller. *)
Ltac method_adds F s :=
  let Hi := fresh "Hi" in
  let Hrun := fresh "Hrun" in
  destruct (isInitialised (repo s)) eqn:Hi;
  [ destruct (F E s) as [? ?] eqn:Hrun; cbn [fst snd]; unfold F in Hrun;
    enter_method Hrun s Hi
  | unfold F, bind; cbn [self]; rewrite Hi; constructor ].

Lemma CheckForUpdates_adds (s : St) :
  AddsOnly 2 (trace s) (trace (snd (CheckForUpdates E s))).
Proof.
  method_adds CheckForUpdates s. split_run Hrun.
  all: injection Hrun as <- <-; adds_only.
Qed.

Lemma PullChanges_adds (s : St) : AddsOnly 3 (trace s) (trace (snd (PullChanges E s))).
Proof.
  method_adds PullChanges s. split_run Hrun.
  all: injection Hrun as <- <-; adds_only.
Qed.

Lemma BuildContainers_adds (s : St) :
  AddsOnly 4 (trace s) (trace (snd (BuildContainers E s))).
Proof.
  method_adds BuildContainers s. unfold buildArgs in Hrun. split_run Hrun.
  all: injection Hrun as <- <-; adds_only.
Qed.

Lemma DeployContainers_adds (s : St) :
  AddsOnly 5 (trace s) (trace (snd (DeployContainers E s))).
Proof.
  method_adds DeployContainers s. unfold selectAfter, ctxErr in Hrun. cbn in Hrun.
  split_run Hrun.
  all: injection Hrun as <- <-; adds_only.
Qed.

(** Turns what is known about the calls of a run into what they added to
    the history. *)
Ltac note_adds :=
  repeat match goal with
         | H : ensureCloned E ?x = _ |- _ =>
             generalize (ensureCloned_adds x); rewrite H; cbn; intro; clear H
         | H : CheckForUpdates E ?x = _ |- _ =>
             generalize (CheckForUpdates_adds x); rewrite H; cbn; intro; clear H
         | H : PullChanges E ?x = _ |- _ =>
             generalize (PullChanges_adds x); rewrite H; cbn; intro; clear H
         | H : BuildContainers E ?x = _ |- _ =>
             generalize (BuildContainers_adds x); rewrite H; cbn; intro; clear H
         | H : DeployContainers E ?x = _ |- _ =>
             generalize (DeployContainers_adds x); rewrite H; cbn; intro; clear H
         end.

Ltac chain_grows :=
  repeat match goal with
         | G : Grows ?h ?k0 ?a, A : AddsOnly ?k ?a ?b |- _ =>
             assert (Grows h k b) by (eapply GrowsMore; [exact G|lia|exact A]); clear A
         end.

Lemma Process_grows (s : St) : Grows (trace s) 5 (trace (snd (Process E s))).
Proof.
  assert (G : Grows (trace s) 1 (trace s)) by (constructor; lia).
  run_process.
  all: note_adds; chain_grows.
  all: match goal with
       | G' : Grows _ ?k ?h |- Grows _ 5 ?h =>
           eapply GrowsMore; [exact G'|lia|constructor]
       end.
Qed.

(** C4.  [Process] issues its commands in the order of the steps
    (clone; fetch, the two [rev-parse] and the ancestor check; pull; build;
    scale up and down): the ranks of the commands it adds to the history
    never go down.  When [Process] gets to a step and the step fails,
    [Process] returns that failure, wrapped with the name of the step, and
    the history is left as the failing step left it: nothing of a later step
    is issued.  When it gets to the last step, the step succeeds and the
    context is not cancelled, it returns a nil error. *)
Theorem Process_order_and_short_circuit (s : St) :
  (exists new,
      commands (trace (snd (Process E s))) = (commands (trace s) ++ new)%list /\
      inOrder 1 (map rankOf new) = true) /\
  (forall step e s',
      stepRun E step s = Some (Some e, s') ->
      fst (Process E s) = Some (failureOf step e) /\
      trace (snd (Process E s)) = trace s') /\
  (forall s',
      stepRun E StepDeploy s = Some (None, s') ->
      fst (ctxErr E s') = None ->
      fst (Process E s) = None /\ trace (snd (Process E s)) = trace s').
Proof.
  split; [|split].
  - destruct (Grows_inOrder _ _ _ (Process_grows s)) as [_ [new [Hnew [Hord _]]]].
    exists new. split; assumption.
  - intros step e s'. apply Process_short_circuit.
  - intros s'. apply Process_completes.
Qed.

(** C3, as the code has it.  When [Process] gets to [CheckForUpdates] and
    this returns [false] with a nil error, the history is left as
    [CheckForUpdates] left it: no pull, build, scale-up or scale-down
    command is issued.  [Process] then returns a nil error if the context
    is not cancelled at the check that follows [CheckForUpdates], and the
    cancellation otherwise. *)
Theorem Process_without_updates (s s2 : St) :
  detectRun E s = Some (false, None, s2) ->
  trace (snd (Process E s)) = trace s2 /\
  (fst (ctxErr E s2) = None -> fst (Process E s) = None) /\
  (fst (ctxErr E s2) <> None -> fst (Process E s) = Some Canceled).
Proof.
  unfold_stages; run_process.
  all: intros H; inversion H; subst; cbn; (split; [reflexivity|]);
    split; intros; first [reflexivity | congruence].
Qed.

(** C10.  When [Process] gets to a step, the step returns a nil error and
    the context is found cancelled at the check that follows, [Process]
    returns the cancellation, with the history as the step left it; this
    holds for the last step too, where all the work of the cycle is done. *)
Theorem Process_cancelled_after_step (s : St) (step : Step) (s' : St) :
  stepRun E step s = Some (None, s') ->
  fst (ctxErr E s') <> None ->
  fst (Process E s) = Some Canceled /\ trace (snd (Process E s)) = trace s'.
Proof.
  destruct step; unfold_stages; run_process.
  all: intros H; inversion H; subst; cbn; intros; try congruence; split; reflexivity.
Qed.

(** ** The monitoring loop *)

Lemma ensureCloned_keeps_context (s : St) :
  cancelled (snd (ensureCloned E s)) = cancelled s.
Proof.
  destruct (isInitialised (repo s)) eqn:Hi.
  - unfold ensureCloned, bind. cbn [self]. rewrite Hi. reflexivity.
  - destruct (ensureCloned E s) as [res s'] eqn:Hrun. cbn [fst snd].
    unfold ensureCloned in Hrun. unfold bind at 1 in Hrun. cbn [self] in Hrun.
    rewrite Hi in Hrun. unfold bind at 1 in Hrun.
    pose proof (getWorkingPath_frame s) as Hfr. cbv zeta in Hfr.
    destruct (getWorkingPath E s) as [[wd e] [[cfg0 ex0 wp0 ini0] t0 l0 c0]].
    destruct s as [[cfg ex wp ini] t l c].
    cbn in Hfr, Hi. destruct Hfr as (-> & -> & -> & -> & -> & ->). subst ini.
    unfold ensureBasePath, bind, self, ret, log, stat, mkdirAll, execute, setInitialised
      in Hrun.
    cbn in Hrun. split_run Hrun.
    all: injection Hrun as <- <-; reflexivity.
Qed.

(** With the context cancelled from the start, [Process] gets no further
    than [ensureCloned], and the context stays cancelled. *)
Lemma Process_in_cancelled_context (s : St) :
  cancelled s = true ->
  trace (snd (Process E s)) = trace (snd (ensureCloned E s)) /\
  cancelled (snd (Process E s)) = true /\
  (fst (ensureCloned E s) = None -> fst (Process E s) = Some Canceled).
Proof.
  intros Hc. pose proof (ensureCloned_keeps_context s) as Hk. rewrite Hc in Hk.
  unfold Process, bind.
  destruct (ensureCloned E s) as [[e|] s1]; cbn [fst snd] in *.
  - cbn. repeat split; [exact Hk|discriminate].
  - rewrite checkCtx_run. unfold ctxErr. rewrite Hk. cbn. repeat split; reflexivity.
Qed.

(** C9, as the code has it.  When a tick and the cancellation are both
    ready, the loop returns in this round in either case.  If the runtime
    takes the cancellation, nothing but the wait and the log record of the
    stop is added.  If it takes the tick, [Process] is called once more,
    with the context cancelled; the call gets no further than
    [ensureCloned], and on an initialized controller it issues nothing and
    returns the cancellation. *)
Theorem monitorLoop_both_ready (fuel : nat) (s : St) :
  bothReady E s ->
  fst (monitorLoop E (S fuel) s) = Returned /\
  (pickDone (tickReady E (trace s)) = true -> exitsOnCancellation E (S fuel) s) /\
  (pickDone (tickReady E (trace s)) = false ->
     trace (snd (monitorLoop E (S fuel) s)) = trace (snd (Process E (lastCycleStart s))) /\
     trace (snd (Process E (lastCycleStart s))) =
       trace (snd (ensureCloned E (lastCycleStart s))) /\
     (isInitialised (repo s) = true ->
        fst (Process E (lastCycleStart s)) = Some Canceled /\
        trace (snd (monitorLoop E (S fuel) s)) = EvTick :: trace s)).
Proof.
  intros [Htick Hdone].
  unfold exitsOnCancellation.
  destruct (monitorLoop E (S fuel) s) as [res sf] eqn:Hrun. cbn [fst snd].
  cbn [monitorLoop] in Hrun. unfold bind at 1 in Hrun.
  unfold selectTick in Hrun. rewrite Htick, Hdone in Hrun. cbn [goSelect] in Hrun.
  destruct (pickDone (tickReady E (trace s))).
  - cbn in Hrun. injection Hrun as <- <-.
    split; [reflexivity|]. split; [intros _; repeat split|discriminate].
  - fold (afterTick s) in Hrun.
    destruct (Process_in_cancelled_context (lastCycleStart s) eq_refl)
      as (Htrace & Hctx & Hres).
    unfold bind at 1 in Hrun. cbn [log] in Hrun.
    change (mkSt (repo (afterTick s)) (trace (afterTick s))
              ((LevelInfo, "Scheduled check triggered.") :: logs (afterTick s))
              (cancelled (afterTick s)))
      with (lastCycleStart s) in Hrun.
    assert (Hinit : isInitialised (repo s) = true ->
                    ensureCloned E (lastCycleStart s) = (None, lastCycleStart s)).
    { intros Hi. destruct (ensureCloned_cases (lastCycleStart s)) as [[_ H]|[H _]];
        [exact H|cbn in H; congruence]. }
    unfold bind at 1, processAndLog, bind at 1 in Hrun.
    destruct (Process E (lastCycleStart s)) as [err s2]. cbn [fst snd] in *.
    assert (Hsf : res = Returned /\ trace sf = trace s2).
    { destruct (negb (isNil err)); unfold bind, log, ret, ctxErr in Hrun; cbn in Hrun;
        rewrite Hctx in Hrun; cbn in Hrun; injection Hrun as <- <-; split; reflexivity. }
    destruct Hsf as [-> Hsf].
    split; [reflexivity|]. split; [discriminate|]. intros _.
    split; [exact Hsf|]. split; [exact Htrace|].
    intros Hi. specialize (Hinit Hi). rewrite Hinit in Hres, Htrace. cbn in Hres, Htrace.
    split; [now apply Hres|]. rewrite Hsf, Htrace. reflexivity.
Qed.

(** ** Further properties of the controller *)

Lemma succeeded_of_test (a : ExecResult) :
  negb (isNil (execErr a)) || negb (exitCode a =? 0) = false -> succeeded a.
Proof.
  unfold succeeded. destruct (execErr a); cbn; [discriminate|].
  destruct (Z.eqb_spec (exitCode a) 0); cbn; [tauto|discriminate].
Qed.

Lemma failed_of_test (a : ExecResult) :
  negb (isNil (execErr a)) || negb (exitCode a =? 0) = true -> failed a.
Proof.
  unfold failed. destruct (execErr a); cbn; [left; discriminate|].
  destruct (Z.eqb_spec (exitCode a) 0); cbn; [discriminate|tauto].
Qed.

(** X6.  The working path is computed once: after a call of
    [getWorkingPath] that returned a path, a further call returns the same
    path and changes nothing. *)
Theorem getWorkingPath_cached (s : St) (p : string) :
  fst (getWorkingPath E s) = (p, None) ->
  p <> EmptyString ->
  getWorkingPath E (snd (getWorkingPath E s)) = (p, None, snd (getWorkingPath E s)).
Proof.
  intros H Hp. apply isEmpty_false in Hp.
  destruct s as [[cfg ex wp ini] t l c].
  unfold getWorkingPath, bind, self, ret, setWorkingPath in *. cbn -[isEmpty] in *.
  destruct (isEmpty wp) eqn:Hw; cbn -[isEmpty] in *.
  - destruct (isEmpty (BasePath cfg) || isEmpty (CloneDirName cfg)); cbn -[isEmpty] in *;
      [discriminate|].
    destruct (Abs E (BasePath cfg)) as [a [e|]]; cbn -[isEmpty] in *; [discriminate|].
    injection H as H. rewrite H, Hp. reflexivity.
  - injection H as H. rewrite Hw. cbn. rewrite H. reflexivity.
Qed.

(** Brings a run of [ensureCloned] on a controller that is not
    initialized, kept in [H], to the point after [getWorkingPath]. *)
Ltac enter_ensureCloned H s Hi :=
  unfold ensureCloned in H; unfold bind at 1 in H; cbn [self] in H;
  rewrite Hi in H; unfold bind at 1 in H;
  let Hfr := fresh "Hfr" in
  pose proof (getWorkingPath_frame s) as Hfr; cbv zeta in Hfr;
  unfold gitDirPath, workDirOf in *;
  let wd := fresh "wd" in
  destruct (getWorkingPath E s) as [[wd ?] [[? ? ? ?] ? ? ?]];
  destruct s as [[? ? ? ?] ? ? ?];
  cbn [fst snd] in *; cbn in Hfr, Hi;
  destruct Hfr as (-> & -> & -> & -> & -> & ->); subst;
  unfold ensureBasePath, bind, self, ret, log, stat, mkdirAll, execute, setInitialised in H;
  cbn in *.

(** X7.  A controller whose base path or directory name is empty cannot
    be initialized: [ensureCloned] fails on the working path before it
    touches the file system or the runner, and leaves the state as it
    was. *)
Theorem ensureCloned_config_error (s : St) :
  isInitialised (repo s) = false ->
  workingPath (repo s) = EmptyString ->
  BasePath (Config (repo s)) = EmptyString \/ CloneDirName (Config (repo s)) = EmptyString ->
  ensureCloned E s =
    (Some (Errorf "could not determine working path: %w"
             [ArgW (Some (Errorf "basePath or cloneDirName is empty in repository config" []))]),
     s).
Proof.
  intros Hi Hw Hcfg.
  assert (Hb : isEmpty (BasePath (Config (repo s))) || isEmpty (CloneDirName (Config (repo s)))
               = true).
  { destruct Hcfg as [H|H]; rewrite H; cbn; [reflexivity|apply orb_true_r]. }
  unfold ensureCloned, getWorkingPath, bind, self, ret. cbn.
  rewrite Hi, Hw. cbn. rewrite Hb. reflexivity.
Qed.

(** X8.  When the marker of a working copy is found, [ensureCloned]
    marks the controller initialized and returns a nil error after the one
    probe: nothing is handed to the runner. *)
Theorem ensureCloned_existing_copy (s : St) :
  isInitialised (repo s) = false ->
  snd (fst (getWorkingPath E s)) = None ->
  Stat E (trace s) (gitDirPath E s) = None ->
  fst (ensureCloned E s) = None /\
  isInitialised (repo (snd (ensureCloned E s))) = true /\
  trace (snd (ensureCloned E s)) = EvStat (gitDirPath E s) :: trace s.
Proof.
  intros Hi Hwp Hstat.
  destruct (ensureCloned E s) as [res s'] eqn:Hrun. cbn [fst snd].
  enter_ensureCloned Hrun s Hi. rewrite Hstat in Hrun. cbn in Hrun.
  injection Hrun as <- <-. repeat split; reflexivity.
Qed.

(** X9.  When the probe of the marker fails with an error other than
    "does not exist", [ensureCloned] returns that failure after the one
    probe; nothing is created or cloned and the controller stays
    uninitialized. *)
Theorem ensureCloned_probe_error (s : St) (e : error) :
  isInitialised (repo s) = false ->
  snd (fst (getWorkingPath E s)) = None ->
  Stat E (trace s) (gitDirPath E s) = Some e ->
  IsNotExist (Some e) = false ->
  fst (ensureCloned E s) =
    Some (Errorf "failed to check for existing .git directory at '%s': %w"
            [ArgS (gitDirPath E s); ArgW (Some e)]) /\
  isInitialised (repo (snd (ensureCloned E s))) = false /\
  trace (snd (ensureCloned E s)) = EvStat (gitDirPath E s) :: trace s.
Proof.
  intros Hi Hwp Hstat Hne.
  destruct (ensureCloned E s) as [res s'] eqn:Hrun. cbn [fst snd].
  enter_ensureCloned Hrun s Hi. rewrite Hstat in Hrun. cbn in Hrun.
  rewrite Hne in Hrun. cbn in Hrun.
  injection Hrun as <- <-. repeat split; reflexivity.
Qed.

(** X10.  The four methods that need an initialized controller return
    their error at once on one that is not, and leave the state as it
    was. *)
Theorem methods_need_initialisation (s : St) :
  isInitialised (repo s) = false ->
  CheckForUpdates E s =
    (false, Some (Errorf "repository not initialized, call EnsureCloned first" []), s) /\
  PullChanges E s = (Some (Errorf "repository not initialized" []), s) /\
  BuildContainers E s = (Some (Errorf "repository not initialised" []), s) /\
  DeployContainers E s = (Some (Errorf "repository not initialised" []), s).
Proof.
  intros Hi.
  unfold CheckForUpdates, PullChanges, BuildContainers, DeployContainers, bind.
  cbn [self]. rewrite Hi. repeat split; reflexivity.
Qed.

(** *** The clone *)

Ltac unfold_clone_points :=
  unfold cloneAnswer, cloneCommand, mkdirAnswer, traceAfterBaseProbe, basePathProbe,
    traceAfterMarker in *.

(** X28.  When the marker of the working copy does not exist and the base
    path does, [ensureCloned] hands one command to the runner, the clone of
    the configured branch and URL into the configured directory, run in the
    base path; it returns a nil error exactly when the clone ran to exit
    code 0, and the controller is initialized after the call exactly
    then. *)
Theorem ensureCloned_clone_outcome (s : St) :
  isInitialised (repo s) = false ->
  snd (fst (getWorkingPath E s)) = None ->
  IsNotExist (Stat E (trace s) (gitDirPath E s)) = true ->
  basePathProbe E s = None ->
  trace (snd (ensureCloned E s)) =
    cloneCommand s :: EvStat (BasePath (Config (repo s))) :: EvStat (gitDirPath E s)
      :: trace s /\
  (fst (ensureCloned E s) = None <-> succeeded (cloneAnswer E s)) /\
  (isInitialised (repo (snd (ensureCloned E s))) = true <-> succeeded (cloneAnswer E s)).
Proof.
  intros Hi Hwp Hgit Hbase. unfold_clone_points.
  destruct (ensureCloned E s) as [res s'] eqn:Hrun. cbn [fst snd].
  enter_ensureCloned Hrun s Hi.
  destruct (Stat E trace1 (Join E wd ".git")) as [e|] eqn:Hstat; [|discriminate].
  cbn in Hrun, Hgit. rewrite Hgit in Hrun. cbn in Hrun.
  rewrite Hbase in Hrun. cbn in Hrun.
  unfold succeeded.
  destruct (Execute Executor1 _ (BasePath Config1) "git" _) as [out errs code [err|]];
    cbn in *.
  - injection Hrun as <- <-. cbn.
    repeat split; first [reflexivity | discriminate | intros [H _]; discriminate].
  - destruct (code =? 0) eqn:Hcode; cbn in Hrun; injection Hrun as <- <-; cbn.
    + apply Z.eqb_eq in Hcode. repeat split; first [reflexivity | assumption].
    + apply Z.eqb_neq in Hcode.
      repeat split; first [reflexivity | discriminate | intros [_ H]; contradiction].
Qed.

(** X29.  When neither the marker nor the base path exists and the base
    path cannot be created, [ensureCloned] returns that failure; no clone
    is issued and the controller stays uninitialized. *)
Theorem ensureCloned_mkdir_failure (s : St) (e : error) :
  isInitialised (repo s) = false ->
  snd (fst (getWorkingPath E s)) = None ->
  IsNotExist (Stat E (trace s) (gitDirPath E s)) = true ->
  IsNotExist (basePathProbe E s) = true ->
  mkdirAnswer E s = Some e ->
  fst (ensureCloned E s) =
    Some (Errorf "failed to create base path '%s': %w"
            [ArgS (BasePath (Config (repo s))); ArgW (Some e)]) /\
  isInitialised (repo (snd (ensureCloned E s))) = false /\
  trace (snd (ensureCloned E s)) =
    EvMkdirAll (BasePath (Config (repo s))) 493 :: EvStat (BasePath (Config (repo s)))
      :: EvStat (gitDirPath E s) :: trace s.
Proof.
  intros Hi Hwp Hgit Hbase Hmk. unfold_clone_points.
  destruct (ensureCloned E s) as [res s'] eqn:Hrun. cbn [fst snd].
  enter_ensureCloned Hrun s Hi.
  destruct (Stat E trace1 (Join E wd ".git")) as [e0|] eqn:Hstat; [|discriminate].
  cbn in Hrun, Hgit. rewrite Hgit in Hrun. cbn in Hrun.
  destruct (Stat E (EvStat (Join E wd ".git") :: trace1) (BasePath Config1)) as [e1|] eqn:Hb;
    [|discriminate].
  cbn in Hrun, Hbase. rewrite Hbase in Hrun. cbn in Hrun. rewrite Hmk in Hrun. cbn in Hrun.
  injection Hrun as <- <-. repeat split; reflexivity.
Qed.

(** *** What the methods keep *)

Lemma keepsController_refl (s : St) : keepsController s s.
Proof. unfold keepsController. tauto. Qed.

Lemma keepsController_trans (s1 s2 s3 : St) :
  keepsController s1 s2 -> keepsController s2 s3 -> keepsController s1 s3.
Proof.
  unfold keepsController. intros (H1 & H2 & H3) (H4 & H5 & H6).
  repeat split; [congruence|congruence|tauto].
Qed.

Ltac keeps := unfold keepsController; cbn; repeat split; auto.

Lemma ensureCloned_keeps (s : St) : keepsController s (snd (ensureCloned E s)).
Proof.
  destruct (isInitialised (repo s)) eqn:Hi.
  - unfold ensureCloned, bind. cbn [self]. rewrite Hi. apply keepsController_refl.
  - destruct (ensureCloned E s) as [res s'] eqn:Hrun. cbn [fst snd].
    enter_ensureCloned Hrun s Hi. split_run Hrun.
    all: injection Hrun as <- <-; keeps.
Qed.

(** The common shape of the four methods that need an initialized
    controller, for a goal about the state they leave. *)
Ltac method_cases F s :=
  let Hi := fresh "Hi" in
  let Hrun := fresh "Hrun" in
  destruct (isInitialised (repo s)) eqn:Hi;
  [ destruct (F E s) as [? ?] eqn:Hrun; cbn [fst snd]; unfold F in Hrun;
    enter_method Hrun s Hi
  | unfold F, bind; cbn [self]; rewrite Hi; cbn ].

Lemma CheckForUpdates_keeps (s : St) : keepsController s (snd (CheckForUpdates E s)).
Proof.
  method_cases CheckForUpdates s; [|apply keepsController_refl].
  split_run Hrun. all: injection Hrun as <- <-; keeps.
Qed.

Lemma PullChanges_keeps (s : St) : keepsController s (snd (PullChanges E s)).
Proof.
  method_cases PullChanges s; [|apply keepsController_refl].
  split_run Hrun. all: injection Hrun as <- <-; keeps.
Qed.

Lemma BuildContainers_keeps (s : St) : keepsController s (snd (BuildContainers E s)).
Proof.
  method_cases BuildContainers s; [|apply keepsController_refl].
  split_run Hrun. all: injection Hrun as <- <-; keeps.
Qed.

Lemma DeployContainers_keeps (s : St) : keepsController s (snd (DeployContainers E s)).
Proof.
  method_cases DeployContainers s; [|apply keepsController_refl].
  unfold selectAfter, ctxErr in Hrun. cbn in Hrun.
  split_run Hrun. all: injection Hrun as <- <-; keeps.
Qed.

(** Turns what is known about the calls of a run into what they keep. *)
Ltac note_keeps :=
  repeat match goal with
         | H : ensureCloned E ?x = _ |- _ =>
             generalize (ensureCloned_keeps x); rewrite H; cbn; intro; clear H
         | H : CheckForUpdates E ?x = _ |- _ =>
             generalize (CheckForUpdates_keeps x); rewrite H; cbn; intro; clear H
         | H : PullChanges E ?x = _ |- _ =>
             generalize (PullChanges_keeps x); rewrite H; cbn; intro; clear H
         | H : BuildContainers E ?x = _ |- _ =>
             generalize (BuildContainers_keeps x); rewrite H; cbn; intro; clear H
         | H : DeployContainers E ?x = _ |- _ =>
             generalize (DeployContainers_keeps x); rewrite H; cbn; intro; clear H
         end.

Ltac chain_keeps :=
  unfold keepsController in *; cbn in *;
  repeat match goal with
         | H : _ /\ _ |- _ => destruct H
         end;
  repeat split; try congruence; auto 10.

(** X11.  A cycle never changes the configuration or the runner of the
    controller, and never takes the initialization away: a controller
    that is initialized before [Process] is initialized after it. *)
Theorem Process_keeps_controller (s : St) : keepsController s (snd (Process E s)).
Proof.
  run_process.
  all: note_keeps; chain_keeps.
Qed.

(** *** The errors of a cycle *)

Ltac not_that_error :=
  let H := fresh "H" in
  intros H; injection H as <-; unfold notInitialised; intros [H|[H|H]]; discriminate.

Lemma ensureCloned_error_kind (s : St) (e : error) (s' : St) :
  ensureCloned E s = (Some e, s') -> ~ notInitialised e.
Proof.
  intros H. assert (Hres : fst (ensureCloned E s) = Some e) by (rewrite H; reflexivity).
  clear H. revert Hres.
  destruct (isInitialised (repo s)) eqn:Hi.
  - unfold ensureCloned, bind. cbn [self]. rewrite Hi. discriminate.
  - destruct (ensureCloned E s) as [res s1] eqn:Hrun. cbn [fst snd].
    enter_ensureCloned Hrun s Hi. split_run Hrun.
    all: injection Hrun as <- <-; first [discriminate | not_that_error].
Qed.

Lemma ensureCloned_ok_initialised (s s' : St) :
  ensureCloned E s = (None, s') -> isInitialised (repo s') = true.
Proof.
  intros H. destruct (ensureCloned_cases s) as [[Hi Hrun]|(_ & _ & [[_ Hi]|[Hbad _]])].
  - rewrite Hrun in H. injection H as <-. exact Hi.
  - rewrite H in Hi. exact Hi.
  - rewrite H in Hbad. now contradiction Hbad.
Qed.

Lemma CheckForUpdates_error_kind (s : St) (b : bool) (e : error) (s' : St) :
  CheckForUpdates E s = (b, Some e, s') -> isInitialised (repo s) = true ->
  ~ notInitialised e.
Proof.
  intros H Hi. assert (Hres : snd (fst (CheckForUpdates E s)) = Some e) by (rewrite H; reflexivity).
  clear H. revert Hres.
  destruct (CheckForUpdates E s) as [res s1] eqn:Hrun. cbn [fst snd].
  unfold CheckForUpdates in Hrun. enter_method Hrun s Hi. split_run Hrun.
  all: injection Hrun as <- <-; cbn; first [discriminate | not_that_error].
Qed.

Ltac method_error_kind F s H Hi :=
  let Hres := fresh "Hres" in
  let Hrun := fresh "Hrun" in
  match type of H with
  | _ = (Some ?e, _) =>
      assert (Hres : fst (F E s) = Some e) by (rewrite H; reflexivity)
  end;
  clear H; revert Hres;
  destruct (F E s) as [? ?] eqn:Hrun; cbn [fst snd];
  unfold F in Hrun; enter_method Hrun s Hi.

Lemma PullChanges_error_kind (s : St) (e : error) (s' : St) :
  PullChanges E s = (Some e, s') -> isInitialised (repo s) = true -> ~ notInitialised e.
Proof.
  intros H Hi. method_error_kind PullChanges s H Hi. split_run Hrun.
  all: injection Hrun as <- <-; cbn; first [discriminate | not_that_error].
Qed.

Lemma BuildContainers_error_kind (s : St) (e : error) (s' : St) :
  BuildContainers E s = (Some e, s') -> isInitialised (repo s) = true -> ~ notInitialised e.
Proof.
  intros H Hi. method_error_kind BuildContainers s H Hi. split_run Hrun.
  all: injection Hrun as <- <-; cbn; first [discriminate | not_that_error].
Qed.

Lemma DeployContainers_error_kind (s : St) (e : error) (s' : St) :
  DeployContainers E s = (Some e, s') -> isInitialised (repo s) = true -> ~ notInitialised e.
Proof.
  intros H Hi. method_error_kind DeployContainers s H Hi.
  unfold selectAfter, ctxErr in Hrun. cbn in Hrun. split_run Hrun.
  all: injection Hrun as <- <-; cbn; first [discriminate | not_that_error].
Qed.

(** Derives, call after call, that the controller is initialized where
    the calls of a run after [ensureCloned] start and end. *)
Ltac known_init y :=
  match goal with
  | I : isInitialised (repo y) = true |- _ => idtac
  end.

Ltac step_init keeps_lemma :=
  match goal with
  | H : _ E ?x = (_, ?y) |- _ =>
      tryif known_init y then fail else
        (let I := fresh "I" in
         assert (I : isInitialised (repo x) = true) by (cbn; assumption);
         let K := fresh "K" in
         pose proof (keeps_lemma x) as K; rewrite H in K; cbn [snd] in K;
         destruct K as (_ & _ & K); specialize (K I))
  end.

Ltac note_init :=
  repeat match goal with
         | H : ensureCloned E ?x = (None, ?y) |- _ =>
             tryif known_init y then fail else
               pose proof (ensureCloned_ok_initialised _ _ H)
         end;
  repeat first [ step_init CheckForUpdates_keeps | step_init PullChanges_keeps
               | step_init BuildContainers_keeps | step_init DeployContainers_keeps ].

(** X12.  Inside a cycle the methods are never called on a controller
    that is not initialized: whatever failure [Process] returns for a step,
    the error inside it is not a not-initialized error. *)
Theorem Process_never_not_initialised (s : St) (format : string) (e : error) :
  fst (Process E s) = Some (Errorf format [ArgW (Some e)]) -> ~ notInitialised e.
Proof.
  run_process.
  all: try discriminate.
  all: note_init.
  all: let H := fresh "H" in intros H; injection H as _ <-.
  all: first [ eapply ensureCloned_error_kind; eassumption
             | eapply CheckForUpdates_error_kind; [eassumption|cbn; assumption]
             | eapply PullChanges_error_kind; [eassumption|cbn; assumption]
             | eapply BuildContainers_error_kind; [eassumption|cbn; assumption]
             | eapply DeployContainers_error_kind; [eassumption|cbn; assumption] ].
Qed.

(** *** Pull, build and deploy *)

Ltac unfold_points :=
  unfold pullAnswer, pullCommand, buildAnswer, buildCommand, scaleDownAnswer,
    scaleDownCommand, settleCase, settleReady, upAnswer, upCommand in *.

(** X13.  On an initialized controller [PullChanges] hands exactly one
    command to the runner, the fast-forward-only pull of the tracked branch
    in the working directory, and returns a nil error exactly when that
    command ran to exit code 0. *)
Theorem PullChanges_one_command (s : St) :
  isInitialised (repo s) = true ->
  trace (snd (PullChanges E s)) =
    EvExec (workDirOf E s) "git" ["pull"; "origin"; Branch (Config (repo s)); "--ff-only"]
      :: trace s /\
  (fst (PullChanges E s) = None <-> succeeded (pullAnswer E s)).
Proof.
  intros Hi. unfold_points.
  destruct (PullChanges E s) as [res s'] eqn:Hrun. cbn [fst snd].
  unfold PullChanges in Hrun. enter_method Hrun s Hi.
  match type of Hrun with context [if ?c then _ else _] => destruct c eqn:Hc end;
    cbn in Hrun; injection Hrun as <- <-; (split; [reflexivity|]).
  - apply failed_of_test in Hc. unfold failed, succeeded in *. split; [discriminate|].
    intros [H1 H2]. destruct Hc; contradiction.
  - apply succeeded_of_test in Hc. tauto.
Qed.

(** X14.  On an initialized controller [BuildContainers] hands exactly
    one command to the runner: the compose build with base-image refresh of
    the manifest (the configured path if absolute, else joined to the
    working directory), for the configured service if one is named; it
    returns a nil error exactly when that command ran to exit code 0. *)
Theorem BuildContainers_one_command (s : St) :
  isInitialised (repo s) = true ->
  trace (snd (BuildContainers E s)) =
    EvExec (workDirOf E s) "docker"
      (["compose"; "-f";
        if IsAbs E (ComposeFile (Config (repo s))) then ComposeFile (Config (repo s))
        else Join E (workDirOf E s) (ComposeFile (Config (repo s)));
        "build"; "--pull"]
       ++ (if isEmpty (ServiceName (Config (repo s))) then []
           else [ServiceName (Config (repo s))]))%list
      :: trace s /\
  (fst (BuildContainers E s) = None <-> succeeded (buildAnswer E s)).
Proof.
  intros Hi. unfold_points.
  destruct (BuildContainers E s) as [res s'] eqn:Hrun. cbn [fst snd].
  unfold BuildContainers in Hrun. enter_method Hrun s Hi.
  match type of Hrun with context [if ?c then _ else _] => destruct c eqn:Hc end;
    cbn in Hrun; injection Hrun as <- <-; (split; [|]).
  1, 3: unfold buildArgs, composeFilePath; cbn -[isEmpty];
    destruct (IsAbs E (ComposeFile Config1)), (isEmpty (ServiceName Config1)); reflexivity.
  - apply failed_of_test in Hc. unfold failed, succeeded in *. split; [discriminate|].
    intros [H1 H2]. destruct Hc; contradiction.
  - apply succeeded_of_test in Hc. tauto.
Qed.

(** The cancellation case of a [select] is taken only when the
    cancellation has arrived. *)
Lemma goSelect_done (chan done coin : bool) :
  goSelect chan done coin = CaseDone -> done = true.
Proof. destruct chan, done, coin; cbn; first [reflexivity | discriminate]. Qed.

Ltac close_outcome :=
  cbn in *; unfold succeeded, failed in *; repeat split;
  first [tauto | reflexivity | discriminate].

(** What [DeployContainers] returns and leaves on the history, by the
    answers it gets. *)
Lemma DeployContainers_outcome (s : St) :
  isInitialised (repo s) = true ->
  (failed (upAnswer E s) /\
   fst (DeployContainers E s) <> None /\
   trace (snd (DeployContainers E s)) = upCommand E s :: trace s) \/
  (succeeded (upAnswer E s) /\ settleCase E s = CaseDone /\
   fst (DeployContainers E s) = Some Canceled /\
   trace (snd (DeployContainers E s)) = EvAfter healthCheckDelay :: upCommand E s :: trace s) \/
  (succeeded (upAnswer E s) /\ settleCase E s = CaseChan /\ failed (scaleDownAnswer E s) /\
   fst (DeployContainers E s) =
     Some (Errorf "docker compose scale down failed (exit %d): %w. Stderr: %s"
             [ArgD (exitCode (scaleDownAnswer E s)); ArgW (execErr (scaleDownAnswer E s));
              ArgS (stderr (scaleDownAnswer E s))]) /\
   trace (snd (DeployContainers E s)) =
     scaleDownCommand E s :: EvAfter healthCheckDelay :: upCommand E s :: trace s) \/
  (succeeded (upAnswer E s) /\ settleCase E s = CaseChan /\ succeeded (scaleDownAnswer E s) /\
   fst (DeployContainers E s) = None /\
   trace (snd (DeployContainers E s)) =
     scaleDownCommand E s :: EvAfter healthCheckDelay :: upCommand E s :: trace s).
Proof.
  intros Hi. unfold_points.
  destruct (DeployContainers E s) as [res s'] eqn:Hrun. cbn [fst snd].
  unfold DeployContainers in Hrun. enter_method Hrun s Hi.
  match type of Hrun with context [if ?c then _ else _] => destruct c eqn:Hup end;
    cbn in Hrun.
  { injection Hrun as <- <-. left. apply failed_of_test in Hup. close_outcome. }
  apply succeeded_of_test in Hup. right.
  unfold selectAfter in Hrun. cbn in Hrun.
  match type of Hrun with context [goSelect ?a ?b ?c] => destruct (goSelect a b c) eqn:Hsel end;
    cbn in Hrun.
  - right.
    match type of Hrun with context [if ?c then _ else _] => destruct c eqn:Hdown end;
      cbn in Hrun; injection Hrun as <- <-.
    + left. apply failed_of_test in Hdown. close_outcome.
    + right. apply succeeded_of_test in Hdown. close_outcome.
  - left. unfold ctxErr in Hrun. cbn in Hrun.
    pose proof (goSelect_done _ _ _ Hsel) as Hd. cbn in Hd.
    rewrite Hd in Hrun. cbn in Hrun. injection Hrun as <- <-. close_outcome.
Qed.

(** X15.  On an initialized controller [DeployContainers] returns a nil
    error exactly when the scale-up ran to exit code 0, the settle wait
    ended with the timer and the scale-down ran to exit code 0; the history
    then shows the scale-up, the wait of 30 seconds and the scale-down, in
    this order. *)
Theorem DeployContainers_nil_iff (s : St) :
  isInitialised (repo s) = true ->
  (fst (DeployContainers E s) = None <->
   succeeded (upAnswer E s) /\ settleCase E s = CaseChan /\ succeeded (scaleDownAnswer E s)) /\
  (fst (DeployContainers E s) = None ->
   trace (snd (DeployContainers E s)) =
     scaleDownCommand E s :: EvAfter (30 * 1000000000) :: upCommand E s :: trace s).
Proof.
  intros Hi.
  destruct (DeployContainers_outcome s Hi)
    as [(Hup & Hres & Ht)|[(Hup & Hsel & Hres & Ht)|[(Hup & Hsel & Hdown & Hres & Ht)
                                                     |(Hup & Hsel & Hdown & Hres & Ht)]]].
  - split; [|intros H; contradiction]. split; [intros H; contradiction|].
    intros ([H1 H2] & _). destruct Hup; contradiction.
  - rewrite Hres. split; [|discriminate]. split; [discriminate|].
    intros (_ & H & _). congruence.
  - rewrite Hres. split; [|discriminate]. split; [discriminate|].
    intros (_ & _ & [H1 H2]). destruct Hdown; contradiction.
  - split; [tauto|]. intros _. exact Ht.
Qed.

(** X16.  When the scale-down fails after a successful scale-up and a
    wait that ended with the timer, [DeployContainers] returns the
    scale-down failure with the exit code, the runner's error and the
    captured stderr; both scale commands are on the history, and no further
    command follows. *)
Theorem DeployContainers_scale_down_failure (s : St) :
  isInitialised (repo s) = true ->
  succeeded (upAnswer E s) ->
  settleCase E s = CaseChan ->
  failed (scaleDownAnswer E s) ->
  fst (DeployContainers E s) =
    Some (Errorf "docker compose scale down failed (exit %d): %w. Stderr: %s"
            [ArgD (exitCode (scaleDownAnswer E s)); ArgW (execErr (scaleDownAnswer E s));
             ArgS (stderr (scaleDownAnswer E s))]) /\
  trace (snd (DeployContainers E s)) =
    scaleDownCommand E s :: EvAfter healthCheckDelay :: upCommand E s :: trace s.
Proof.
  intros Hi [Hu1 Hu2] Hsel Hd.
  destruct (DeployContainers_outcome s Hi)
    as [(Hup & _)|[(_ & Hsel' & _)|[(_ & _ & _ & Hres & Ht)|(_ & _ & [H1 H2] & _)]]].
  - destruct Hup; contradiction.
  - congruence.
  - split; assumption.
  - destruct Hd; contradiction.
Qed.

(** X17.  Whatever the runner and the context do, [DeployContainers] adds
    to the history the scale-up alone, the scale-up and the wait, or the
    scale-up, the wait and the scale-down: the scale-down is never issued
    without a scale-up and a wait before it, and nothing else is issued. *)
Theorem DeployContainers_histories (s : St) :
  isInitialised (repo s) = true ->
  trace (snd (DeployContainers E s)) = upCommand E s :: trace s \/
  trace (snd (DeployContainers E s)) = EvAfter healthCheckDelay :: upCommand E s :: trace s \/
  trace (snd (DeployContainers E s)) =
    scaleDownCommand E s :: EvAfter healthCheckDelay :: upCommand E s :: trace s.
Proof.
  intros Hi.
  destruct (DeployContainers_outcome s Hi)
    as [(_ & _ & Ht)|[(_ & _ & _ & Ht)|[(_ & _ & _ & _ & Ht)|(_ & _ & _ & _ & Ht)]]];
    tauto.
Qed.

(** *** Update detection *)

Lemma CheckForUpdates_fetch_failed (s : St) :
  isInitialised (repo s) = true ->
  failed (fetchAnswer E s) ->
  fst (CheckForUpdates E s) =
    (false, Some (Errorf "git fetch failed (exit %d): %w. Stderr: %s"
                    [ArgD (exitCode (fetchAnswer E s)); ArgW (execErr (fetchAnswer E s));
                     ArgS (stderr (fetchAnswer E s))])) /\
  trace (snd (CheckForUpdates E s)) = traceAfterFetch E s.
Proof.
  intros Hi Hf. apply failed_test in Hf. unfold_answers.
  destruct (CheckForUpdates E s) as [res s'] eqn:Hrun. unfold CheckForUpdates in Hrun.
  enter_method Hrun s Hi.
  rewrite Hf in Hrun. cbn in Hrun. injection Hrun as <- <-. split; reflexivity.
Qed.

Lemma CheckForUpdates_local_failed (s : St) :
  isInitialised (repo s) = true ->
  succeeded (fetchAnswer E s) ->
  failed (localAnswer E s) ->
  fst (CheckForUpdates E s) =
    (false, Some (Errorf "failed to get local HEAD (exit %d): %w. Stderr: %s"
                    [ArgD (exitCode (localAnswer E s)); ArgW (execErr (localAnswer E s));
                     ArgS (stderr (localAnswer E s))])) /\
  trace (snd (CheckForUpdates E s)) = traceAfterLocal E s.
Proof.
  intros Hi Hf Hl. apply succeeded_test in Hf. apply failed_test in Hl. unfold_answers.
  destruct (CheckForUpdates E s) as [res s'] eqn:Hrun. unfold CheckForUpdates in Hrun.
  enter_method Hrun s Hi.
  rewrite Hf in Hrun. cbn in Hrun. rewrite Hl in Hrun. cbn in Hrun.
  injection Hrun as <- <-. split; reflexivity.
Qed.

Lemma CheckForUpdates_remote_failed (s : St) :
  isInitialised (repo s) = true ->
  succeeded (fetchAnswer E s) ->
  succeeded (localAnswer E s) ->
  failed (remoteAnswer E s) ->
  fst (CheckForUpdates E s) =
    (false, Some (Errorf "failed to get remote commit for '%s' (exit %d): %w. Stderr: %s"
                    [ArgS ("origin/" ++ Branch (Config (repo s)));
                     ArgD (exitCode (remoteAnswer E s)); ArgW (execErr (remoteAnswer E s));
                     ArgS (stderr (remoteAnswer E s))])) /\
  trace (snd (CheckForUpdates E s)) = traceAfterRemote E s.
Proof.
  intros Hi Hf Hl Hr. apply succeeded_test in Hf, Hl. apply failed_test in Hr. unfold_answers.
  destruct (CheckForUpdates E s) as [res s'] eqn:Hrun. unfold CheckForUpdates in Hrun.
  enter_method Hrun s Hi.
  rewrite Hf in Hrun. cbn in Hrun. rewrite Hl in Hrun. cbn in Hrun.
  rewrite Hr in Hrun. cbn in Hrun.
  injection Hrun as <- <-. split; reflexivity.
Qed.

Lemma succeeded_or_failed (a : ExecResult) : succeeded a \/ failed a.
Proof.
  destruct (negb (isNil (execErr a)) || negb (exitCode a =? 0)) eqn:H.
  - right. now apply failed_of_test.
  - left. now apply succeeded_of_test.
Qed.

(** X18.  [CheckForUpdates] stops at the first of its three first
    commands that fails: the fetch, the reading of the local commit, the
    reading of the remote commit.  It returns [false] with the failure of
    that command, and the history ends with that command. *)
Theorem CheckForUpdates_stops_at_failure (s : St) :
  isInitialised (repo s) = true ->
  (failed (fetchAnswer E s) ->
   fst (CheckForUpdates E s) =
     (false, Some (Errorf "git fetch failed (exit %d): %w. Stderr: %s"
                     [ArgD (exitCode (fetchAnswer E s)); ArgW (execErr (fetchAnswer E s));
                      ArgS (stderr (fetchAnswer E s))])) /\
   trace (snd (CheckForUpdates E s)) = traceAfterFetch E s) /\
  (succeeded (fetchAnswer E s) -> failed (localAnswer E s) ->
   fst (CheckForUpdates E s) =
     (false, Some (Errorf "failed to get local HEAD (exit %d): %w. Stderr: %s"
                     [ArgD (exitCode (localAnswer E s)); ArgW (execErr (localAnswer E s));
                      ArgS (stderr (localAnswer E s))])) /\
   trace (snd (CheckForUpdates E s)) = traceAfterLocal E s) /\
  (succeeded (fetchAnswer E s) -> succeeded (localAnswer E s) -> failed (remoteAnswer E s) ->
   fst (CheckForUpdates E s) =
     (false, Some (Errorf "failed to get remote commit for '%s' (exit %d): %w. Stderr: %s"
                     [ArgS ("origin/" ++ Branch (Config (repo s)));
                      ArgD (exitCode (remoteAnswer E s)); ArgW (execErr (remoteAnswer E s));
                      ArgS (stderr (remoteAnswer E s))])) /\
   trace (snd (CheckForUpdates E s)) = traceAfterRemote E s).
Proof.
  intros Hi. split; [|split].
  - now apply CheckForUpdates_fetch_failed.
  - now apply CheckForUpdates_local_failed.
  - now apply CheckForUpdates_remote_failed.
Qed.

(** X19.  [CheckForUpdates] reports updates only for a clean
    fast-forward: when it returns [true], the controller is initialized,
    the fetch and the two readings ran to exit code 0, the two commits
    differ and the ancestor check exited 0. *)
Theorem CheckForUpdates_true_only_if (s : St) :
  fst (CheckForUpdates E s) = (true, None) ->
  isInitialised (repo s) = true /\
  succeeded (fetchAnswer E s) /\ succeeded (localAnswer E s) /\
  succeeded (remoteAnswer E s) /\
  localCommit E s <> remoteCommit E s /\
  exitCode (ancestorAnswer E s) = 0.
Proof.
  intros H.
  destruct (isInitialised (repo s)) eqn:Hi.
  2: { unfold CheckForUpdates, bind in H. cbn [self] in H. rewrite Hi in H. discriminate. }
  split; [reflexivity|].
  destruct (succeeded_or_failed (fetchAnswer E s)) as [Hf|Hf].
  2: { destruct (CheckForUpdates_fetch_failed s Hi Hf) as [Hr _]. congruence. }
  destruct (succeeded_or_failed (localAnswer E s)) as [Hl|Hl].
  2: { destruct (CheckForUpdates_local_failed s Hi Hf Hl) as [Hr _]. congruence. }
  destruct (succeeded_or_failed (remoteAnswer E s)) as [Hr|Hr].
  2: { destruct (CheckForUpdates_remote_failed s Hi Hf Hl Hr) as [Hres _]. congruence. }
  repeat split; try apply Hf; try apply Hl; try apply Hr.
  - intros Heq. destruct (CheckForUpdates_same s Hi Hf Hl Hr Heq) as [Hres _]. congruence.
  - destruct (String.eqb_spec (localCommit E s) (remoteCommit E s)) as [Heq|Hne].
    + destruct (CheckForUpdates_same s Hi Hf Hl Hr Heq) as [Hres _]. congruence.
    + destruct (CheckForUpdates_differ s Hi Hf Hl Hr Hne) as [Hres _]. cbv zeta in Hres.
      rewrite Hres in H.
      destruct (negb (isNil (execErr (ancestorAnswer E s))) &&
                negb (exitCode (ancestorAnswer E s) =? 0) &&
                negb (exitCode (ancestorAnswer E s) =? 1)); [discriminate|].
      destruct (Z.eqb_spec (exitCode (ancestorAnswer E s)) 0); [assumption|discriminate].
Qed.

(** ** Further properties of the monitor *)

(** One round of the loop, by the case the [select] takes and the context
    after the cycle. *)
Lemma monitorLoop_round (fuel : nat) (s : St) :
  monitorLoop E (S fuel) s =
  match fst (selectTick E s) with
  | CaseDone =>
      (Returned,
       snd (log LevelInfo "Monitoring stopping due to context cancellation signal."
              (snd (selectTick E s))))
  | CaseChan =>
      match ctxErr E (afterTickCycle E s) with
      | (Some _, s') =>
          (Returned,
           snd (log LevelInfo
                  "Monitoring stopped during scheduled process due to context cancellation."
                  s'))
      | (None, s') => monitorLoop E fuel s'
      end
  end.
Proof.
  cbn [monitorLoop]. unfold afterTickCycle, bind at 1.
  destruct (selectTick E s) as [[|] s1]; cbn [fst snd]; [|reflexivity].
  unfold bind at 1. cbn [log fst snd]. unfold bind at 1.
  destruct (processAndLog E "Error during scheduled processing" _) as [u s2]. cbn [snd].
  unfold bind at 1.
  destruct (ctxErr E s2) as [[e|] s3]; cbn; reflexivity.
Qed.

Lemma selectTick_done (s : St) :
  fst (selectTick E s) = CaseDone -> cancelled (snd (selectTick E s)) = true.
Proof. unfold selectTick. cbn. apply goSelect_done. Qed.

Lemma monitorLoop_never_panics (fuel : nat) :
  forall s, fst (monitorLoop E fuel s) <> Panicked.
Proof.
  induction fuel as [|fuel IH]; intros s; [cbn; discriminate|].
  rewrite monitorLoop_round.
  destruct (fst (selectTick E s)); [|cbn; discriminate].
  destruct (ctxErr E (afterTickCycle E s)) as [[e|] s']; [cbn; discriminate|apply IH].
Qed.

(** X20.  The loop of the monitor ends only on cancellation: whenever it
    returns, the context is cancelled.  A cycle that failed does not end
    it. *)
Theorem monitorLoop_returns_cancelled (fuel : nat) (s : St) :
  fst (monitorLoop E fuel s) = Returned ->
  cancelled (snd (monitorLoop E fuel s)) = true.
Proof.
  revert s. induction fuel as [|fuel IH]; intros s; [cbn; discriminate|].
  rewrite monitorLoop_round.
  destruct (fst (selectTick E s)) eqn:Hsel.
  - destruct (ctxErr E (afterTickCycle E s)) as [[e|] s'] eqn:Hc; [|apply IH].
    intros _. apply ctxErr_some in Hc. destruct Hc as [_ ->]. reflexivity.
  - intros _. cbn. now apply selectTick_done.
Qed.


(** The monitor, by the context after the first cycle and the duration of
    the ticker. *)
Lemma monitorRepository_run (fuel : nat) (checkIntervalSec : Z) (s : St) :
  monitorRepository E fuel checkIntervalSec s =
  match ctxErr E (afterInitialCycle E s) with
  | (Some _, s') =>
      (Returned,
       snd (log LevelInfo
              "Monitoring stopped during initial process due to context cancellation." s'))
  | (None, s') =>
      if wrap64 (checkIntervalSec * Second) <=? 0 then (Panicked, s')
      else monitorLoop E fuel
             (snd (emit (EvNewTicker (wrap64 (checkIntervalSec * Second))) s'))
  end.
Proof.
  unfold monitorRepository, afterInitialCycle. unfold bind at 1. cbn [log fst snd].
  unfold bind at 1. cbn [log fst snd]. unfold bind at 1.
  destruct (processAndLog E "Error during initial processing" _) as [u s2]. cbn [snd].
  unfold bind at 1.
  destruct (ctxErr E s2) as [[e|] s3]; cbn [isNil negb]; [reflexivity|].
  destruct (wrap64 (checkIntervalSec * Second) <=? 0); reflexivity.
Qed.

(** X22.  The monitor panics exactly when the context is not cancelled
    after the first cycle and the duration of the ticker, the interval in
    seconds times 10^9 wrapped to 64 bits, is not positive. *)
Theorem monitorRepository_panics_iff (fuel : nat) (checkIntervalSec : Z) (s : St) :
  fst (monitorRepository E fuel checkIntervalSec s) = Panicked <->
  fst (ctxErr E (afterInitialCycle E s)) = None /\
  wrap64 (checkIntervalSec * 1000000000) <= 0.
Proof.
  rewrite monitorRepository_run. change Second with 1000000000.
  destruct (ctxErr E (afterInitialCycle E s)) as [[e|] s'].
  - cbn. split; [discriminate|intros [H _]; discriminate].
  - cbn [fst]. destruct (Z.leb_spec (wrap64 (checkIntervalSec * 1000000000)) 0).
    + cbn. tauto.
    + split; [|lia]. intros Hp. now apply monitorLoop_never_panics in Hp.
Qed.

Lemma wrap64_small (z : Z) : - 2 ^ 63 <= z < 2 ^ 63 -> wrap64 z = z.
Proof. intros H. unfold wrap64. rewrite Z.mod_small by lia. lia. Qed.

Lemma wrap64_next (z : Z) : 2 ^ 63 <= z < 2 ^ 64 -> wrap64 z = z - 2 ^ 64.
Proof.
  intros H. unfold wrap64.
  replace (z + 2 ^ 63) with ((z - 2 ^ 63) + 1 * 2 ^ 64) by lia.
  rewrite Z.mod_add by lia. rewrite Z.mod_small by lia. lia.
Qed.

(** X23.  With an interval from 1 to 9223372036 seconds the monitor never
    panics. *)
Theorem monitorRepository_safe_interval (fuel : nat) (checkIntervalSec : Z) (s : St) :
  1 <= checkIntervalSec <= 9223372036 ->
  fst (monitorRepository E fuel checkIntervalSec s) <> Panicked.
Proof.
  intros H. rewrite monitorRepository_run.
  destruct (ctxErr E (afterInitialCycle E s)) as [[e|] s']; [cbn; discriminate|].
  rewrite wrap64_small by (unfold Second; lia).
  destruct (Z.leb_spec (checkIntervalSec * Second) 0); [unfold Second in *; lia|].
  apply monitorLoop_never_panics.
Qed.

(** X24.  With an interval from 9223372037 to 18446744073 seconds the
    product with 10^9 wraps to a negative duration, and the monitor panics
    in [time.NewTicker] after a first cycle that leaves the context
    uncancelled. *)
Theorem monitorRepository_interval_overflow (fuel : nat) (checkIntervalSec : Z) (s : St) :
  9223372037 <= checkIntervalSec <= 18446744073 ->
  fst (ctxErr E (afterInitialCycle E s)) = None ->
  fst (monitorRepository E fuel checkIntervalSec s) = Panicked /\
  trace (snd (monitorRepository E fuel checkIntervalSec s)) = trace (afterInitialCycle E s).
Proof.
  intros H Hc. rewrite monitorRepository_run.
  destruct (ctxErr E (afterInitialCycle E s)) as [[e|] s'] eqn:Hctx; [discriminate|].
  apply ctxErr_none in Hctx. subst s'.
  rewrite wrap64_next by (unfold Second; lia).
  destruct (Z.leb_spec (checkIntervalSec * Second - 2 ^ 64) 0); [|unfold Second in *; lia].
  split; reflexivity.
Qed.

(** X25.  When the context is cancelled by the end of the first cycle,
    the monitor returns without creating a ticker and without waiting. *)
Theorem monitorRepository_cancelled_at_start (fuel : nat) (checkIntervalSec : Z) (s : St) :
  fst (ctxErr E (afterInitialCycle E s)) <> None ->
  fst (monitorRepository E fuel checkIntervalSec s) = Returned /\
  trace (snd (monitorRepository E fuel checkIntervalSec s)) = trace (afterInitialCycle E s).
Proof.
  intros Hc. rewrite monitorRepository_run.
  destruct (ctxErr E (afterInitialCycle E s)) as [[e|] s'] eqn:Hctx;
    [|now contradiction Hc].
  apply ctxErr_some in Hctx. destruct Hctx as [_ ->]. split; reflexivity.
Qed.

End RepositoryProps.

(** X30.  The runner of the repository honours the contract, given what
    [os/exec] promises: [cmd.Run] returns a nil error only for a command
    that exited with status 0.  Then [Execute] returns a nil error with
    exit code 0 only. *)
Lemma OSCommandExecutor_contract
    (run : History -> string -> string -> list string -> RawRun) :
  (forall h workingDir command args status,
      runResult (run h workingDir command args) = RunNil status ->
      status = None \/ status = Some 0) ->
  RunnerContract (NewOSCommandExecutor run).
Proof.
  intros Hrun h workingDir command args. cbn. unfold OSExecute.
  destruct (runResult (run h workingDir command args)) as [status|status e|e] eqn:Hres;
    cbn; try discriminate.
  intros _. destruct (Hrun _ _ _ _ _ Hres) as [->| ->]; reflexivity.
Qed.

Lemma scripted_contract (localId remoteId : string) (ancestor : ExecResult)
    (others : string -> list string -> ExecResult) :
  (execErr ancestor = None -> exitCode ancestor = 0) ->
  (forall command args, execErr (others command args) = None ->
                        exitCode (others command args) = 0) ->
  RunnerContract (world.scripted localId remoteId ancestor others).
Proof.
  intros Ha Ho h workingDir command args. cbn.
  destruct (String.eqb (world.subcommand args) "rev-parse").
  - destruct (String.eqb (nth 1 args EmptyString) "HEAD"); reflexivity.
  - destruct (String.eqb (world.subcommand args) "merge-base"); [exact Ha|apply Ho].
Qed.

Lemma CheckForUpdates_detects_witness :
  fst (CheckForUpdates world.quiet upToDate) = (false, None) /\
  fst (CheckForUpdates world.quiet (behind (world.printed EmptyString))) = (true, None) /\
  fst (CheckForUpdates world.quiet (behind (world.exited 1))) = (false, None).
Proof.
  split; [|split].
  - destruct (CheckForUpdates_detects world.quiet upToDate eq_refl
                (conj eq_refl eq_refl) (conj eq_refl eq_refl) (conj eq_refl eq_refl))
      as [Hsame _].
    apply Hsame. reflexivity.
  - destruct (CheckForUpdates_detects world.quiet (behind (world.printed EmptyString))
                eq_refl (conj eq_refl eq_refl) (conj eq_refl eq_refl) (conj eq_refl eq_refl))
      as [_ Hdiffer].
    apply Hdiffer; [discriminate|reflexivity].
  - destruct (CheckForUpdates_detects world.quiet (behind (world.exited 1))
                eq_refl (conj eq_refl eq_refl) (conj eq_refl eq_refl) (conj eq_refl eq_refl))
      as [_ Hdiffer].
    apply Hdiffer; [discriminate|reflexivity].
Defined.

Lemma CheckForUpdates_ancestor_failure_witness :
  fst (CheckForUpdates world.quiet (behind (world.exited 128))) =
    (false, Some (Errorf "git merge-base execution failed (exit %d): %w. Stderr: %s"
                    [ArgD 128; ArgW (Some (SysError false "exit status")); ArgS "failed"])).
Proof.
  assert (Hcontract : RunnerContract (Executor (repo (behind (world.exited 128))))).
  { apply scripted_contract; [cbn; discriminate | intros; reflexivity]. }
  destruct (CheckForUpdates_ancestor_failure world.quiet (behind (world.exited 128))
              eq_refl Hcontract (conj eq_refl eq_refl) (conj eq_refl eq_refl)
              (conj eq_refl eq_refl)) as [Hres _]; [discriminate ..|].
  exact Hres.
Defined.

Lemma DeployContainers_scale_up_failure_witness :
  fst (DeployContainers world.quiet (deployable (world.exited 1))) =
    Some (Errorf "docker compose scale up failed (exit %d): %w. Stderr: %s"
            [ArgD 1; ArgW (Some (SysError false "exit status")); ArgS "failed"]) /\
  commands (trace (snd (DeployContainers world.quiet (deployable (world.exited 1))))) =
    [("docker", ["compose"; "-f"; "/srv/apps/shop/docker-compose.yml"; "up"; "-d"; "--no-deps";
                 "--scale"; "web=2"; "--no-recreate"; "web"])].
Proof.
  destruct (DeployContainers_scale_up_failure world.quiet (deployable (world.exited 1)) eq_refl)
    as [Hres Htrace].
  - left. discriminate.
  - split; [exact Hres|]. rewrite Htrace. reflexivity.
Defined.

(** The theorem above is about a cancellation that arrives before the
    timer fires.  When both are ready as the [select] commits, the choice is
    the runtime's; if it takes the timer, the scale-down command is issued
    with the context cancelled. *)
Example DeployContainers_timer_taken_when_both_ready :
  length (commands (trace (snd (DeployContainers settledAndCancelled
                                  (deployable (world.printed EmptyString)))))) = 2%nat /\
  cancelled (snd (DeployContainers settledAndCancelled
                    (deployable (world.printed EmptyString)))) = true.
Proof. split; reflexivity. Qed.

Lemma DeployContainers_cancelled_in_wait_witness :
  fst (DeployContainers cancelledWhileSettling (deployable (world.printed EmptyString))) =
    Some Canceled /\
  length (commands (trace (snd (DeployContainers cancelledWhileSettling
                                  (deployable (world.printed EmptyString)))))) = 1%nat.
Proof.
  destruct (DeployContainers_cancelled_in_wait cancelledWhileSettling
              (deployable (world.printed EmptyString)) eq_refl (conj eq_refl eq_refl)
              eq_refl eq_refl) as [Hres Htrace].
  split; [exact Hres|]. rewrite Htrace. reflexivity.
Defined.

(** C5 as stated fails: without a working copy and with a remote that
    cannot be reached, the second call tries the clone again. *)
Lemma ensureCloned_twice_clones_twice :
  clones (trace (ensureClonedTwice noWorkingCopy (world.fresh unreachable))) = 2%nat /\
  ~ clonesAtMostOnce noWorkingCopy (world.fresh unreachable).
Proof.
  split; [reflexivity|].
  unfold clonesAtMostOnce. vm_compute. lia.
Qed.

Lemma ensureCloned_idempotent_witness :
  ensureCloned noWorkingCopy (snd (ensureCloned noWorkingCopy (world.fresh reachable))) =
    (None, snd (ensureCloned noWorkingCopy (world.fresh reachable))) /\
  clones (trace (ensureClonedTwice noWorkingCopy (world.fresh reachable))) = 1%nat /\
  isInitialised (repo (snd (ensureCloned noWorkingCopy (world.fresh unreachable)))) = false.
Proof.
  destruct (ensureCloned_idempotent noWorkingCopy (world.fresh reachable))
    as (_ & Hok & _ & _).
  destruct (ensureCloned_idempotent noWorkingCopy (world.fresh unreachable))
    as (_ & _ & Hbad & _).
  split; [apply Hok; reflexivity|].
  split; [reflexivity|].
  apply Hbad. discriminate.
Defined.

(** Runs the steps of a cycle on a concrete input up to the run [r] and
    hands the result to [k]. *)
Ltac with_run r k :=
  let v := eval vm_compute in r in
  let Hr := fresh "Hr" in
  assert (Hr : r = v) by (vm_compute; reflexivity);
  k Hr.

(** C3 as stated fails: the working copy is up to date and the cancellation
    arrives right after the third command of [CheckForUpdates] has
    returned; [CheckForUpdates] returns [false], and [Process] returns the
    cancellation, not a nil error. *)
Lemma Process_without_updates_cancelled :
  fst (Process (cancelledFrom 3) upToDate) = Some Canceled /\
  ~ noUpdatesEndsInSuccess (cancelledFrom 3) upToDate.
Proof.
  split; [reflexivity|].
  intros H.
  with_run (detectRun (cancelledFrom 3) upToDate) ltac:(fun Hr =>
    destruct (H _ Hr) as [Hres _]).
  vm_compute in Hres. discriminate.
Qed.

Lemma Process_without_updates_witness :
  fst (Process world.quiet upToDate) = None /\
  commands (trace (snd (Process world.quiet upToDate))) =
    [("git", ["fetch"; "origin"; "main"; "--prune"]);
     ("git", ["rev-parse"; "HEAD"]);
     ("git", ["rev-parse"; "origin/main"])].
Proof.
  with_run (detectRun world.quiet upToDate) ltac:(fun Hr =>
    destruct (Process_without_updates world.quiet upToDate _ Hr) as [Htrace [Hok _]]).
  split.
  - apply Hok. reflexivity.
  - rewrite Htrace. reflexivity.
Defined.

Lemma Process_order_and_short_circuit_witness :
  fst (Process world.quiet (deployable (world.exited 1))) =
    Some (Errorf "deploy containers failed: %w"
            [ArgW (Some (Errorf "docker compose scale up failed (exit %d): %w. Stderr: %s"
                           [ArgD 1; ArgW (Some (SysError false "exit status"));
                            ArgS "failed"]))]) /\
  map rankOf (commands (trace (snd (Process world.quiet (deployable (world.exited 1)))))) =
    [2; 2; 2; 2; 3; 4; 5]%nat.
Proof.
  destruct (Process_order_and_short_circuit world.quiet (deployable (world.exited 1)))
    as [_ [Hfail _]].
  with_run (stepRun world.quiet StepDeploy (deployable (world.exited 1))) ltac:(fun Hr =>
    destruct (Hfail _ _ _ Hr) as [Hres Htrace]).
  split.
  - exact Hres.
  - rewrite Htrace. reflexivity.
Defined.

Lemma Process_cancelled_after_step_witness :
  fst (Process (cancelledFrom 9) (deployable (world.printed EmptyString))) = Some Canceled /\
  map rankOf (commands (trace (snd (Process (cancelledFrom 9)
                                      (deployable (world.printed EmptyString)))))) =
    [2; 2; 2; 2; 3; 4; 5; 5]%nat.
Proof.
  with_run (stepRun (cancelledFrom 9) StepDeploy (deployable (world.printed EmptyString)))
    ltac:(fun Hr =>
      destruct (Process_cancelled_after_step (cancelledFrom 9)
                  (deployable (world.printed EmptyString)) StepDeploy _ Hr)
        as [Hres Htrace]).
  - discriminate.
  - split; [exact Hres|]. rewrite Htrace. reflexivity.
Defined.

(** C9 as stated fails: a tick is waiting, the cancellation has arrived,
    the runtime takes the tick, and the controller, which has no working
    copy yet, is handed to [Process] once more: it probes the file system
    and issues a clone command before the loop returns. *)
Lemma monitorLoop_tick_beats_cancellation :
  bothReady tickTaken (world.fresh unreachable) /\
  clones (trace (snd (monitorLoop tickTaken 1 (world.fresh unreachable)))) = 1%nat /\
  clones (trace (snd (monitorRepository tickTaken 1 300 (world.fresh unreachable)))) = 2%nat /\
  ~ cancellationWins tickTaken (world.fresh unreachable).
Proof.
  split; [split; reflexivity|]. split; [reflexivity|]. split; [reflexivity|].
  intros H. destruct (H 0%nat (conj eq_refl eq_refl)) as (_ & Htrace & _).
  vm_compute in Htrace. discriminate.
Qed.

Lemma monitorLoop_both_ready_witness :
  exitsOnCancellation (tickTakenAt true) 1 upToDate /\
  fst (Process (tickTakenAt false) (lastCycleStart upToDate)) = Some Canceled /\
  trace (snd (monitorLoop (tickTakenAt false) 1 upToDate)) = [EvTick].
Proof.
  destruct (monitorLoop_both_ready (tickTakenAt true) 0 upToDate (conj eq_refl eq_refl))
    as (_ & Hdone & _).
  destruct (monitorLoop_both_ready (tickTakenAt false) 0 upToDate (conj eq_refl eq_refl))
    as (_ & _ & Htick).
  split; [apply Hdone; reflexivity|].
  destruct (Htick eq_refl) as (_ & _ & Hinit).
  apply Hinit. reflexivity.
Defined.

(** * Further properties: the watcher and the runner *)

Lemma fold_left_snoc_map {A B : Type} (f : A -> B) (l : list A) :
  forall acc, fold_left (fun rs a => (rs ++ [f a])%list) l acc = (acc ++ map f l)%list.
Proof.
  induction l as [|a l IH]; intros acc; cbn.
  - now rewrite app_nil_r.
  - rewrite IH, <- app_assoc. reflexivity.
Qed.

(** X26.  [NewWatcher] makes one controller per configured repository, in
    the order of the configuration; each holds its entry and the shared
    runner, has no cached path and is not initialized. *)
Theorem NewWatcher_repos (appCfg : AppConfig) (exec : CommandExecutor) :
  repos (NewWatcher appCfg exec) =
    map (fun repoCfg => mkRepository repoCfg exec EmptyString false) (Repositories appCfg) /\
  length (repos (NewWatcher appCfg exec)) = length (Repositories appCfg).
Proof.
  assert (H : repos (NewWatcher appCfg exec) =
              map (fun repoCfg => mkRepository repoCfg exec EmptyString false)
                (Repositories appCfg)).
  { unfold NewWatcher. cbn [repos].
    rewrite (fold_left_snoc_map (fun repoCfg => NewRepository repoCfg exec)). reflexivity. }
  split; [exact H|]. rewrite H. apply length_map.
Qed.

(** X27.  The controllers of a watcher made from a loaded configuration
    never fail on their working path for a missing base path or directory
    name: what the load checked need not be checked again. *)
Theorem loaded_controllers_have_paths (E : Env) (filePath : string) (cfg : AppConfig)
    (exec : CommandExecutor) :
  fst (LoadConfig E filePath) = Some cfg ->
  Forall (fun r => forall t l c,
            snd (fst (getWorkingPath E (mkSt r t l c))) <> Some pathConfigError)
    (repos (NewWatcher cfg exec)).
Proof.
  intros H. apply LoadConfig_entries in H. apply checkEntries_valid in H.
  unfold NewWatcher. cbn [repos].
  rewrite (fold_left_snoc_map (fun repoCfg => NewRepository repoCfg exec)). cbn [app].
  induction H as [|r rest Hr _ IH]; cbn [map]; constructor; [|exact IH].
  intros t l c. destruct Hr as ((Hb & _ & Hd & _) & _).
  apply isEmpty_false in Hb, Hd.
  unfold getWorkingPath, bind, self, ret, setWorkingPath, NewRepository. cbn -[isEmpty].
  rewrite Hb, Hd. cbn -[isEmpty].
  destruct (Abs E (BasePath r)) as [a [e|]]; cbn; unfold pathConfigError; discriminate.
Qed.

Lemma OSCommandExecutor_contract_witness :
  RunnerContract (NewOSCommandExecutor (rawRunner 0)) /\
  RunnerContract (NewOSCommandExecutor (rawRunner 2)) /\
  exitCode (Execute (NewOSCommandExecutor (rawRunner 2)) [] "/srv" "nosuch" []) = -1.
Proof.
  split; [|split; [|reflexivity]].
  - apply OSCommandExecutor_contract. intros h workingDir command args status. unfold rawRunner.
    destruct (String.eqb command "nosuch"); cbn; [discriminate|].
    intros H. injection H as <-. right. reflexivity.
  - apply OSCommandExecutor_contract. intros h workingDir command args status. unfold rawRunner.
    destruct (String.eqb command "nosuch"); cbn; discriminate.
Defined.

(** * The further properties on concrete inputs *)

Lemma LoadConfig_entries_valid_witness :
  Forall validEntry (Repositories twoEntriesLoaded).
Proof.
  apply (LoadConfig_entries_valid twoEntriesEnv "rivet.yaml"). reflexivity.
Defined.

Lemma checkEntries_reports_first_witness :
  exists (n : nat) (r : RepositoryConfig),
    nth_error (Repositories branchMissing) n = Some r /\
    ~ hasRequired r /\
    checkEntry (Z.of_nat n) r =
      inl (Some (Errorf "repository config for '%s/%s' missing required 'branch'"
                   [ArgS "/srv/apps"; ArgS "blog"])) /\
    Forall hasRequired (firstn n (Repositories branchMissing)).
Proof.
  apply (checkEntries_reports_first (Repositories branchMissing)). reflexivity.
Defined.

Lemma checkEntries_idempotent_witness :
  checkEntries 7 (Repositories twoEntriesLoaded) = inr (Repositories twoEntriesLoaded).
Proof.
  apply (checkEntries_idempotent (Repositories twoEntries) (Repositories twoEntriesLoaded) 0 7).
  reflexivity.
Defined.

Lemma getWorkingPath_cached_witness :
  getWorkingPath world.quiet (snd (getWorkingPath world.quiet (world.fresh reachable))) =
    ("/srv/apps/shop", None, snd (getWorkingPath world.quiet (world.fresh reachable))).
Proof.
  apply (getWorkingPath_cached world.quiet (world.fresh reachable) "/srv/apps/shop").
  - reflexivity.
  - discriminate.
Defined.

Lemma ensureCloned_config_error_witness :
  ensureCloned world.quiet unconfigured =
    (Some (Errorf "could not determine working path: %w" [ArgW (Some pathConfigError)]),
     unconfigured).
Proof.
  apply (ensureCloned_config_error world.quiet unconfigured).
  - reflexivity.
  - reflexivity.
  - left. reflexivity.
Defined.

Lemma ensureCloned_existing_copy_witness :
  fst (ensureCloned world.quiet (world.fresh unreachable)) = None /\
  isInitialised (repo (snd (ensureCloned world.quiet (world.fresh unreachable)))) = true /\
  trace (snd (ensureCloned world.quiet (world.fresh unreachable))) =
    [EvStat "/srv/apps/shop/.git"].
Proof.
  apply (ensureCloned_existing_copy world.quiet (world.fresh unreachable)); reflexivity.
Defined.

Lemma ensureCloned_probe_error_witness :
  fst (ensureCloned unreadable (world.fresh reachable)) =
    Some (Errorf "failed to check for existing .git directory at '%s': %w"
            [ArgS "/srv/apps/shop/.git"; ArgW (Some (SysError false "permission denied"))]) /\
  isInitialised (repo (snd (ensureCloned unreadable (world.fresh reachable)))) = false /\
  trace (snd (ensureCloned unreadable (world.fresh reachable))) =
    [EvStat "/srv/apps/shop/.git"].
Proof.
  apply (ensureCloned_probe_error unreadable (world.fresh reachable)
           (SysError false "permission denied")); reflexivity.
Defined.

Lemma methods_need_initialisation_witness :
  PullChanges world.quiet (world.fresh reachable) =
    (Some (Errorf "repository not initialized" []), world.fresh reachable) /\
  DeployContainers world.quiet (world.fresh reachable) =
    (Some (Errorf "repository not initialised" []), world.fresh reachable).
Proof.
  destruct (methods_need_initialisation world.quiet (world.fresh reachable) eq_refl)
    as (_ & Hpull & _ & Hdeploy).
  split; assumption.
Defined.

Lemma Process_never_not_initialised_witness :
  ~ notInitialised
      (Errorf "docker compose scale up failed (exit %d): %w. Stderr: %s"
         [ArgD 1; ArgW (Some (SysError false "exit status")); ArgS "failed"]).
Proof.
  apply (Process_never_not_initialised world.quiet (deployable (world.exited 1))
           "deploy containers failed: %w").
  reflexivity.
Defined.

Lemma PullChanges_one_command_witness :
  trace (snd (PullChanges world.quiet upToDate)) =
    [EvExec "/srv/apps/shop" "git" ["pull"; "origin"; "main"; "--ff-only"]] /\
  fst (PullChanges world.quiet upToDate) = None.
Proof.
  destruct (PullChanges_one_command world.quiet upToDate eq_refl) as [Htrace Hres].
  split; [exact Htrace|]. apply Hres. split; reflexivity.
Defined.

Lemma BuildContainers_one_command_witness :
  trace (snd (BuildContainers world.quiet upToDate)) =
    [EvExec "/srv/apps/shop" "docker"
       ["compose"; "-f"; "/srv/apps/shop/docker-compose.yml"; "build"; "--pull"; "web"]] /\
  fst (BuildContainers world.quiet upToDate) = None.
Proof.
  destruct (BuildContainers_one_command world.quiet upToDate eq_refl) as [Htrace Hres].
  split; [exact Htrace|]. apply Hres. split; reflexivity.
Defined.

Lemma DeployContainers_nil_iff_witness :
  fst (DeployContainers world.quiet (deployable (world.printed EmptyString))) = None /\
  commands (trace (snd (DeployContainers world.quiet
                          (deployable (world.printed EmptyString))))) =
    [("docker", ["compose"; "-f"; "/srv/apps/shop/docker-compose.yml"; "up"; "-d"; "--no-deps";
                 "--scale"; "web=2"; "--no-recreate"; "web"]);
     ("docker", ["compose"; "-f"; "/srv/apps/shop/docker-compose.yml"; "up"; "-d";
                 "--scale"; "web=1"; "--no-recreate"; "web"])].
Proof.
  destruct (DeployContainers_nil_iff world.quiet (deployable (world.printed EmptyString))
              eq_refl) as [Hiff Htrace].
  assert (Hres : fst (DeployContainers world.quiet (deployable (world.printed EmptyString)))
                 = None).
  { apply Hiff. repeat split; reflexivity. }
  split; [exact Hres|]. rewrite (Htrace Hres). reflexivity.
Defined.

Lemma DeployContainers_scale_down_failure_witness :
  fst (DeployContainers world.quiet (overScaled (world.exited 1))) =
    Some (Errorf "docker compose scale down failed (exit %d): %w. Stderr: %s"
            [ArgD 1; ArgW (Some (SysError false "exit status")); ArgS "failed"]) /\
  length (commands (trace (snd (DeployContainers world.quiet
                                  (overScaled (world.exited 1)))))) = 2%nat.
Proof.
  destruct (DeployContainers_scale_down_failure world.quiet (overScaled (world.exited 1))
              eq_refl (conj eq_refl eq_refl) eq_refl) as [Hres Htrace].
  - left. discriminate.
  - split; [exact Hres|]. rewrite Htrace. reflexivity.
Defined.

Lemma DeployContainers_histories_witness :
  length (trace (snd (DeployContainers cancelledWhileSettling
                        (deployable (world.printed EmptyString))))) = 2%nat.
Proof.
  destruct (DeployContainers_histories cancelledWhileSettling
              (deployable (world.printed EmptyString)) eq_refl) as [H|[H|H]];
    rewrite H; first [reflexivity | vm_compute in H; discriminate].
Defined.

Lemma CheckForUpdates_stops_at_failure_witness :
  fst (CheckForUpdates world.quiet fetchFails) =
    (false, Some (Errorf "git fetch failed (exit %d): %w. Stderr: %s"
                    [ArgD 128; ArgW (Some (SysError false "exit status")); ArgS "failed"])) /\
  trace (snd (CheckForUpdates world.quiet fetchFails)) =
    [EvExec "/srv/apps/shop" "git" ["fetch"; "origin"; "main"; "--prune"]].
Proof.
  destruct (CheckForUpdates_stops_at_failure world.quiet fetchFails eq_refl) as [Hfetch _].
  apply Hfetch. left. discriminate.
Defined.

Lemma CheckForUpdates_true_only_if_witness :
  localCommit world.quiet (behind (world.printed EmptyString)) <>
    remoteCommit world.quiet (behind (world.printed EmptyString)) /\
  exitCode (ancestorAnswer world.quiet (behind (world.printed EmptyString))) = 0.
Proof.
  destruct (CheckForUpdates_true_only_if world.quiet (behind (world.printed EmptyString))
              eq_refl) as (_ & _ & _ & _ & Hne & Hexit).
  split; assumption.
Defined.

Lemma monitorLoop_returns_cancelled_witness :
  cancelled (snd (monitorLoop (tickTakenAt true) 1 upToDate)) = true.
Proof.
  apply (monitorLoop_returns_cancelled (tickTakenAt true) 1 upToDate). reflexivity.
Defined.


Lemma monitorRepository_safe_interval_witness :
  fst (monitorRepository world.quiet 2 300 upToDate) <> Panicked.
Proof.
  apply (monitorRepository_safe_interval world.quiet 2 300 upToDate). lia.
Defined.

Lemma monitorRepository_interval_overflow_witness :
  fst (monitorRepository world.quiet 2 9223372037 upToDate) = Panicked /\
  trace (snd (monitorRepository world.quiet 2 9223372037 upToDate)) =
    trace (afterInitialCycle world.quiet upToDate).
Proof.
  apply (monitorRepository_interval_overflow world.quiet 2 9223372037 upToDate).
  - lia.
  - reflexivity.
Defined.

Lemma monitorRepository_cancelled_at_start_witness :
  fst (monitorRepository (cancelledFrom 0) 2 300 upToDate) = Returned /\
  trace (snd (monitorRepository (cancelledFrom 0) 2 300 upToDate)) = [].
Proof.
  destruct (monitorRepository_cancelled_at_start (cancelledFrom 0) 2 300 upToDate)
    as [Hres Htrace].
  - discriminate.
  - split; [exact Hres|]. rewrite Htrace. reflexivity.
Defined.

Lemma loaded_controllers_have_paths_witness :
  Forall (fun r => forall t l c,
            snd (fst (getWorkingPath twoEntriesEnv (mkSt r t l c))) <> Some pathConfigError)
    (repos (NewWatcher twoEntriesLoaded reachable)).
Proof.
  apply (loaded_controllers_have_paths twoEntriesEnv "rivet.yaml"). reflexivity.
Defined.

Lemma ensureCloned_clone_outcome_witness :
  fst (ensureCloned onlyBasePath (world.fresh reachable)) = None /\
  commands (trace (snd (ensureCloned onlyBasePath (world.fresh reachable)))) =
    [("git", ["clone"; "-b"; "main"; "https://example.org/shop.git"; "shop"])] /\
  isInitialised (repo (snd (ensureCloned onlyBasePath (world.fresh unreachable)))) = false.
Proof.
  destruct (ensureCloned_clone_outcome onlyBasePath (world.fresh reachable)
              eq_refl eq_refl eq_refl eq_refl) as (Htrace & Hres & _).
  destruct (ensureCloned_clone_outcome onlyBasePath (world.fresh unreachable)
              eq_refl eq_refl eq_refl eq_refl) as (_ & _ & Hinit).
  split; [apply Hres; split; reflexivity|].
  split; [rewrite Htrace; reflexivity|].
  destruct (isInitialised (repo (snd (ensureCloned onlyBasePath (world.fresh unreachable)))));
    [|reflexivity].
  destruct Hinit as [Hbad _]. destruct (Hbad eq_refl) as [Herr _]. discriminate.
Defined.

Lemma ensureCloned_mkdir_failure_witness :
  fst (ensureCloned readOnly (world.fresh reachable)) =
    Some (Errorf "failed to create base path '%s': %w"
            [ArgS "/srv/apps"; ArgW (Some (SysError false "read-only file system"))]) /\
  clones (trace (snd (ensureCloned readOnly (world.fresh reachable)))) = 0%nat.
Proof.
  destruct (ensureCloned_mkdir_failure readOnly (world.fresh reachable)
              (SysError false "read-only file system") eq_refl eq_refl eq_refl eq_refl eq_refl)
    as (Hres & _ & Htrace).
  split; [exact Hres|]. rewrite Htrace. reflexivity.
Defined.
